(** * DrugInteractionAnalyzer: the pairwise drug-interaction matcher

    A shallow embedding of the [DrugInteractionAnalyzer] React component
    (state, the [addDrug] / [removeDrug] / [analyzeInteractions] handlers and
    the static [mockInteractions] table), followed by the properties of the
    pairwise matcher.

    Modelling conventions.
    - JavaScript strings are [string]s of 8-bit characters; [toLowerCase] and
      [trim] are the restrictions of the JavaScript methods to ASCII.
    - [drugs[i].name] on an index outside the array raises a [TypeError] in
      JavaScript; the embedding runs in the [option] monad and returns [None]
      there, so that "the matcher cannot fail" is a theorem and not a
      convention.
    - A handler is a function from the component state to the next state and
      the list of toasts it raised.  The simulated two-second network delay of
      [analyzeInteractions] is elided: handlers run atomically.
    - [Date.now()] is an input of [addDrug].
    - The delay itself is modelled apart, by [Page]: the handler is split at
      its [await], and the second half runs when the timer fires, on the list
      captured at the press. *)

From Stdlib Require Import Ascii NArith.
From stdpp Require Import base option list sorting strings pretty.

(** ** Strings *)

Definition lower_ascii (c : ascii) : ascii :=
  let n := N_of_ascii c in
  if ((65 <=? n) && (n <=? 90))%N then ascii_of_N (n + 32) else c.

Fixpoint toLowerCase (s : string) : string :=
  match s with
  | EmptyString => EmptyString
  | String c s' => String (lower_ascii c) (toLowerCase s')
  end.

(** White space and line terminators of [String.prototype.trim], ASCII part:
    TAB, LF, VT, FF, CR and SPACE. *)
Definition is_white_space (c : ascii) : bool :=
  let n := N_of_ascii c in
  ((9 <=? n) && (n <=? 13) || (n =? 32))%N.

Fixpoint trimStart (s : string) : string :=
  match s with
  | EmptyString => EmptyString
  | String c s' => if is_white_space c then trimStart s' else s
  end.

Fixpoint trimEnd (s : string) : string :=
  match s with
  | EmptyString => EmptyString
  | String c s' =>
      match trimEnd s' with
      | EmptyString => if is_white_space c then EmptyString else String c EmptyString
      | t => String c t
      end
  end.

Definition trim (s : string) : string := trimEnd (trimStart s).

(** [Array.prototype.includes] on an array of strings. *)
Fixpoint includes (l : list string) (x : string) : bool :=
  match l with
  | [] => false
  | y :: l' => String.eqb y x || includes l' x
  end.

(** ** Data model *)

Inductive Severity := low | moderate | high | severe.

Module Drug.
Record t := mk { id : string; name : string; dosage : string; frequency : string }.
End Drug.

Module Interaction.
Record t := mk {
  drug1 : string;
  drug2 : string;
  severity : Severity;
  description : string;
  recommendation : string
}.
End Interaction.

(** An element of the [mockInteractions] array. *)
Module Mock.
Record t := mk {
  drugs : list string;
  severity : Severity;
  description : string;
  recommendation : string
}.
End Mock.

Module Toast.
Inductive Variant := default | destructive.
Record t := mk { title : string; description : string; variant : Variant }.
End Toast.

Module NewDrug.
Record t := mk { name : string; dosage : string; frequency : string }.
End NewDrug.

(** The four [useState] cells of the component. *)
Record State := mkState {
  drugs : list Drug.t;
  newDrug : NewDrug.t;
  interactions : list Interaction.t;
  isAnalyzing : bool
}.

Definition setDrugs (f : list Drug.t → list Drug.t) (s : State) : State :=
  mkState (f (drugs s)) (newDrug s) (interactions s) (isAnalyzing s).
Definition setNewDrug (n : NewDrug.t) (s : State) : State :=
  mkState (drugs s) n (interactions s) (isAnalyzing s).
Definition setInteractions (l : list Interaction.t) (s : State) : State :=
  mkState (drugs s) (newDrug s) l (isAnalyzing s).
Definition setIsAnalyzing (b : bool) (s : State) : State :=
  mkState (drugs s) (newDrug s) (interactions s) b.

Definition initialState : State :=
  mkState [] (NewDrug.mk "" "" "") [] false.

(** ** The mock drug interaction database *)

Definition mockInteractions : list Mock.t :=
  [ Mock.mk ["warfarin"; "aspirin"] high
      "Increased risk of bleeding when used together"
      "Monitor INR levels closely and consider alternative anticoagulation";
    Mock.mk ["lisinopril"; "potassium"] moderate
      "May cause hyperkalemia (elevated potassium levels)"
      "Monitor serum potassium levels regularly";
    Mock.mk ["metformin"; "iodine"] moderate
      "Contrast agents may increase risk of lactic acidosis"
      "Temporarily discontinue metformin before procedures with contrast" ].

(** ** Handlers *)

Definition addDrug (now : N) (s : State) : State * list Toast.t :=
  if String.eqb (trim (NewDrug.name (newDrug s))) "" then
    (s, [Toast.mk "Validation Error" "Please enter a drug name" Toast.destructive])
  else
    let drug :=
      Drug.mk (pretty now)
              (toLowerCase (trim (NewDrug.name (newDrug s))))
              (NewDrug.dosage (newDrug s))
              (NewDrug.frequency (newDrug s)) in
    (setNewDrug (NewDrug.mk "" "" "") (setDrugs (λ prev, prev ++ [drug]) s),
     [Toast.mk "Drug Added"
        (Drug.name drug +:+ " has been added to the analysis") Toast.default]).

Definition removeDrug (id : string) (s : State) : State :=
  setInteractions []
    (setDrugs (λ prev, filter (λ drug, Drug.id drug ≠ id) prev) s).

(** [for (let k = lo; k < hi; k++) body], threading the loop state and
    stopping at the first exception. *)
Fixpoint for_each {S : Type} (body : nat → S → option S)
    (ks : list nat) (s : S) : option S :=
  match ks with
  | [] => Some s
  | k :: ks' => s' ← body k s; for_each body ks' s'
  end.

Definition for_loop {S : Type} (lo hi : nat) (body : nat → S → option S)
    (s : S) : option S :=
  for_each body (seq lo (hi - lo)) s.

(** The predicate handed to [mockInteractions.find]. *)
Definition mock_matches (drug1 drug2 : string) (mock : Mock.t) : bool :=
  includes (Mock.drugs mock) drug1 && includes (Mock.drugs mock) drug2.

(** Body of the inner loop: one position pair. *)
Definition check_pair (rules : list Mock.t) (drugs : list Drug.t) (i j : nat)
    (foundInteractions : list Interaction.t) : option (list Interaction.t) :=
  di ← drugs !! i;
  dj ← drugs !! j;
  let drug1 := toLowerCase (Drug.name di) in
  let drug2 := toLowerCase (Drug.name dj) in
  match find (mock_matches drug1 drug2) rules with
  | Some interaction =>
      Some (foundInteractions ++
              [Interaction.mk (Drug.name di) (Drug.name dj)
                 (Mock.severity interaction)
                 (Mock.description interaction)
                 (Mock.recommendation interaction)])
  | None => Some foundInteractions
  end.

(** The matcher: the two nested loops of [analyzeInteractions], over an
    arbitrary rule table. *)
Definition foundInteractions (rules : list Mock.t) (drugs : list Drug.t)
    : option (list Interaction.t) :=
  for_loop 0 (length drugs) (λ i found,
    for_loop (i + 1) (length drugs) (λ j found,
      check_pair rules drugs i j found) found) [].

Definition analyzeInteractions (s : State) : option (State * list Toast.t) :=
  if length (drugs s) <? 2 then
    Some (s, [Toast.mk "Insufficient Data"
                "Please add at least 2 drugs to analyze interactions"
                Toast.destructive])
  else
    let s1 := setIsAnalyzing true s in
    found ← foundInteractions mockInteractions (drugs s);
    let s2 := setIsAnalyzing false (setInteractions found s1) in
    Some (s2,
          [if length found =? 0 then
             Toast.mk "Analysis Complete"
               "No significant interactions detected between the entered medications"
               Toast.default
           else
             Toast.mk "Interactions Found"
               (pretty (length found) +:+ " potential interaction(s) detected")
               Toast.destructive]).


(** ** Position pairs and the finding of a pair

    [index_pairs n] lists the position pairs visited by the two loops, in the
    order they are visited.  [finding_at] is what one visit contributes. *)

Definition index_pairs (n : nat) : list (nat * nat) :=
  i ← seq 0 n; (λ j, (i, j)) <$> seq (i + 1) (n - (i + 1)).

Definition finding_of (rules : list Mock.t) (di dj : Drug.t) : option Interaction.t :=
  interaction ←
    find (mock_matches (toLowerCase (Drug.name di)) (toLowerCase (Drug.name dj))) rules;
  Some (Interaction.mk (Drug.name di) (Drug.name dj)
          (Mock.severity interaction)
          (Mock.description interaction)
          (Mock.recommendation interaction)).

Definition finding_at (rules : list Mock.t) (drugs : list Drug.t)
    (p : nat * nat) : option Interaction.t :=
  di ← drugs !! p.1; dj ← drugs !! p.2; finding_of rules di dj.

(** The position pairs at which the table test succeeds, in visiting order. *)
Definition matching_pairs (rules : list Mock.t) (drugs : list Drug.t)
    : list (nat * nat) :=
  filter (λ p, is_Some (finding_at rules drugs p)) (index_pairs (length drugs)).

(** The table test of the source succeeds at positions [i] and [j]. *)
Definition pair_matches (rules : list Mock.t) (drugs : list Drug.t)
    (i j : nat) : Prop :=
  ∃ di dj mock,
    drugs !! i = Some di ∧ drugs !! j = Some dj ∧ mock ∈ rules ∧
    mock_matches (toLowerCase (Drug.name di)) (toLowerCase (Drug.name dj)) mock = true.

(** Lexicographic order on position pairs: the order of the nested loops. *)
Definition pair_lt (p q : nat * nat) : Prop :=
  p.1 < q.1 ∨ (p.1 = q.1 ∧ p.2 < q.2).

(** ** Exact unordered-pair equality

    The reading of "the rule's drug pair is exactly the unordered set of the
    two names": the rule lists the two names and nothing else. *)

Definition exact_pair (mock : Mock.t) (a b : string) : Prop :=
  ∀ x, x ∈ Mock.drugs mock ↔ x = a ∨ x = b.

Definition exact_pairb (mock : Mock.t) (a b : string) : bool :=
  includes (Mock.drugs mock) a && includes (Mock.drugs mock) b &&
  forallb (λ x, String.eqb x a || String.eqb x b) (Mock.drugs mock).

(** The case-folded names at a position pair are exactly some rule's pair. *)
Definition exact_at (rules : list Mock.t) (drugs : list Drug.t)
    (p : nat * nat) : bool :=
  match drugs !! p.1, drugs !! p.2 with
  | Some di, Some dj =>
      existsb (λ mock, exact_pairb mock (toLowerCase (Drug.name di))
                                        (toLowerCase (Drug.name dj))) rules
  | _, _ => false
  end.

Definition exactly_matching_pairs (rules : list Mock.t) (drugs : list Drug.t)
    : list (nat * nat) :=
  filter (λ p, exact_at rules drugs p = true) (index_pairs (length drugs)).

(** ** Using the component *)

(** Filling the three inputs of the form and pressing "Add Drug" at time
    [now]. *)
Definition enterDrug (now : N) (name dosage frequency : string) (s : State)
    : State :=
  (addDrug now (setNewDrug (NewDrug.mk name dosage frequency) s)).1.

Definition swap_names (f : Interaction.t) : Interaction.t :=
  Interaction.mk (Interaction.drug2 f) (Interaction.drug1 f)
    (Interaction.severity f) (Interaction.description f)
    (Interaction.recommendation f).

Definition insufficient_data : Toast.t :=
  Toast.mk "Insufficient Data"
    "Please add at least 2 drugs to analyze interactions" Toast.destructive.

(** ** Presentation

    [getSeverityColor] and [getSeverityIcon] switch on the severity string;
    the result cards choose their left border by the same string.  The
    remaining definitions are the conditions under which the component
    renders its parts. *)

Definition severity_literal (v : Severity) : string :=
  match v with
  | low => "low" | moderate => "moderate" | high => "high" | severe => "severe"
  end.

Definition getSeverityColor (severity : string) : string :=
  if String.eqb severity "severe" then "destructive"
  else if String.eqb severity "high" then "destructive"
  else if String.eqb severity "moderate" then "warning"
  else if String.eqb severity "low" then "success"
  else "secondary".

Inductive Icon := XCircle | AlertTriangle | CheckCircle.

Definition getSeverityIcon (severity : string) : Icon :=
  if String.eqb severity "severe" then XCircle
  else if String.eqb severity "high" then XCircle
  else if String.eqb severity "moderate" then AlertTriangle
  else if String.eqb severity "low" then CheckCircle
  else CheckCircle.

(** The border class of a result card. *)
Definition borderClass (severity : string) : string :=
  if String.eqb severity "severe" || String.eqb severity "high"
  then "border-l-destructive"
  else if String.eqb severity "moderate" then "border-l-warning"
  else "border-l-success".


(** [disabled={isAnalyzing || drugs.length < 2}] on the analyse button. *)
Definition analyzeDisabled (s : State) : bool :=
  isAnalyzing s || (length (drugs s) <? 2).

(** [interactions.length > 0 && ...]: the results card. *)
Definition showsResults (s : State) : bool := 0 <? length (interactions s).

(** [drugs.length >= 2 && interactions.length === 0 && !isAnalyzing]: the
    "No Interactions Detected" alert. *)
Definition showsNoInteractions (s : State) : bool :=
  (2 <=? length (drugs s)) && (length (interactions s) =? 0) &&
  negb (isAnalyzing s).

(** ** Events

    What the user can do: type into one of the three inputs, press "Add
    Drug" (at a time [now]), press the bin of an entry, press the analyse
    button. *)

Inductive Event :=
| TypeName (value : string)
| TypeDosage (value : string)
| TypeFrequency (value : string)
| ClickAdd (now : N)
| ClickRemove (id : string)
| ClickAnalyze.

Definition step (e : Event) (s : State) : State :=
  match e with
  | TypeName value =>
      setNewDrug (NewDrug.mk value (NewDrug.dosage (newDrug s))
                    (NewDrug.frequency (newDrug s))) s
  | TypeDosage value =>
      setNewDrug (NewDrug.mk (NewDrug.name (newDrug s)) value
                    (NewDrug.frequency (newDrug s))) s
  | TypeFrequency value =>
      setNewDrug (NewDrug.mk (NewDrug.name (newDrug s))
                    (NewDrug.dosage (newDrug s)) value) s
  | ClickAdd now => (addDrug now s).1
  | ClickRemove id => removeDrug id s
  | ClickAnalyze =>
      match analyzeInteractions s with
      | Some r => r.1
      | None => setIsAnalyzing true s
      end
  end.

Definition run (es : list Event) (s : State) : State :=
  foldl (λ s e, step e s) s es.

(** The times at which "Add Drug" was pressed. *)
Definition stamps (es : list Event) : list N :=
  omap (λ e, match e with ClickAdd now => Some now | _ => None end) es.

Definition ids (s : State) : list string := Drug.id <$> drugs s.

(** ** The delay of [analyzeInteractions]

    The handler is an [async] function: it runs up to its [await], other
    handlers may run during the two seconds of the timer, then the rest
    runs, on the [drugs] array its closure captured when the button was
    pressed.  [analyzeInteractions_begin] is the part before the [await],
    [analyzeInteractions_resume] the part after it.  A [Page] is the state
    of the component with the analyses waiting for their timer, oldest
    first, each with the list it captured. *)

Definition analyzeInteractions_begin (s : State)
    : State * list Toast.t * option (list Drug.t) :=
  if length (drugs s) <? 2 then
    (s, [Toast.mk "Insufficient Data"
           "Please add at least 2 drugs to analyze interactions"
           Toast.destructive], None)
  else (setIsAnalyzing true s, [], Some (drugs s)).

Definition analyzeInteractions_resume (captured : list Drug.t) (s : State)
    : option (State * list Toast.t) :=
  found ← foundInteractions mockInteractions captured;
  Some (setIsAnalyzing false (setInteractions found s),
        [if length found =? 0 then
           Toast.mk "Analysis Complete"
             "No significant interactions detected between the entered medications"
             Toast.default
         else
           Toast.mk "Interactions Found"
             (pretty (length found) +:+ " potential interaction(s) detected")
             Toast.destructive]).

Record Page := mkPage { state : State; pending : list (list Drug.t) }.

Inductive PageEvent :=
| User (e : Event)
| TimerFires.

(** A press on the analyse button reaches the handler only when the button
    is not disabled. *)
Definition pageStep (e : PageEvent) (p : Page) : Page :=
  match e with
  | User ClickAnalyze =>
      if analyzeDisabled (state p) then p
      else
        match analyzeInteractions_begin (state p) with
        | (s', _, Some captured) => mkPage s' (pending p ++ [captured])
        | (s', _, None) => mkPage s' (pending p)
        end
  | User e => mkPage (step e (state p)) (pending p)
  | TimerFires =>
      match pending p with
      | [] => p
      | captured :: rest =>
          match analyzeInteractions_resume captured (state p) with
          | Some r => mkPage r.1 rest
          | None => mkPage (state p) rest
          end
      end
  end.

Definition pageRun (es : list PageEvent) (p : Page) : Page :=
  foldl (λ p e, pageStep e p) p es.

Definition initialPage : Page := mkPage initialState [].

(** The page events of a user who lets every analysis finish before doing
    anything else. *)
Definition patient (es : list Event) : list PageEvent :=
  es ≫= λ e,
    match e with
    | ClickAnalyze => [User ClickAnalyze; TimerFires]
    | _ => [User e]
    end.

(** What the user did, timers left out. *)
Definition userEvents (es : list PageEvent) : list Event :=
  omap (λ e, match e with User e => Some e | TimerFires => None end) es.

(** ** Auxiliary notions *)

(** Only ASCII characters (codes below 128).  On such strings [trim] and
    [toLowerCase] above are [String.prototype.trim] and
    [String.prototype.toLowerCase]; outside them they are not (JavaScript also
    strips U+00A0 and folds accented capitals), so what is stated about the
    outcome of trimming and folding is stated for ASCII input. *)
Fixpoint ascii_only (s : string) : bool :=
  match s with
  | EmptyString => true
  | String c s' => (N_of_ascii c <? 128)%N && ascii_only s'
  end.

(** What is typed into the name input is ASCII. *)
Definition typed_ascii (e : Event) : Prop :=
  match e with
  | TypeName value => ascii_only value = true
  | _ => True
  end.

(** Only white space. *)
Fixpoint blank (s : string) : bool :=
  match s with
  | EmptyString => true
  | String c s' => is_white_space c && blank s'
  end.

(** No ASCII capital letter. *)
Fixpoint no_capital (s : string) : bool :=
  match s with
  | EmptyString => true
  | String c s' =>
      negb ((65 <=? N_of_ascii c) && (N_of_ascii c <=? 90))%N && no_capital s'
  end.

(** The first character, if any, is not white space. *)
Definition head_black (s : string) : Prop :=
  match s with
  | EmptyString => True
  | String c _ => is_white_space c = false
  end.

(** A name as [addDrug] stores it. *)
Definition normalized (name : string) : Prop :=
  name ≠ "" ∧ toLowerCase name = name ∧ trim name = name.

(** The matcher by recursion on the list: the findings of the head against
    every later entry, then the findings of the tail. *)
Fixpoint pairwise_findings (rules : list Mock.t) (drugs : list Drug.t)
    : list Interaction.t :=
  match drugs with
  | [] => []
  | d :: rest => omap (finding_of rules d) rest ++ pairwise_findings rules rest
  end.

(** What every state reached through the handlers satisfies: stored names
    are normalized, no analysis is left running, and the stored findings are
    the analysis of an initial segment of the current list. *)
Definition consistent (s : State) : Prop :=
  Forall (λ d, normalized (Drug.name d)) (drugs s) ∧
  isAnalyzing s = false ∧
  ∃ k, k ≤ length (drugs s) ∧
       foundInteractions mockInteractions (take k (drugs s))
       = Some (interactions s).

(** * Lemmas *)

Example run_mixed_case :
  foundInteractions mockInteractions
    [Drug.mk "1" "Warfarin" "" ""; Drug.mk "2" "ASPIRIN" "" "";
     Drug.mk "3" "lisinopril" "" ""]
  = Some [Interaction.mk "Warfarin" "ASPIRIN" high
            "Increased risk of bleeding when used together"
            "Monitor INR levels closely and consider alternative anticoagulation"].
Proof. vm_compute. reflexivity. Qed.

(** ** Loops *)

Section loops.
Context {A : Type}.
Implicit Types (body : nat → list A → option (list A)) (g : nat → list A).

Lemma for_each_emit body g ks s :
  (∀ k s', k ∈ ks → body k s' = Some (s' ++ g k)) →
  for_each body ks s = Some (s ++ ks ≫= g).
Proof.
  revert s. induction ks as [|k ks IH]; intros s Hbody; simpl.
  - by rewrite app_nil_r.
  - rewrite Hbody by left. simpl. rewrite IH.
    + by rewrite <-app_assoc.
    + intros k' s' Hk'. apply Hbody. by right.
Qed.

Lemma for_loop_emit body g lo hi s :
  (∀ k s', lo ≤ k < hi → body k s' = Some (s' ++ g k)) →
  for_loop lo hi body s = Some (s ++ seq lo (hi - lo) ≫= g).
Proof.
  intros Hbody. apply for_each_emit. intros k s' Hk.
  apply Hbody. apply elem_of_seq in Hk. lia.
Qed.
End loops.

Lemma omap_bind_option_list {A B} (f : A → option B) (l : list A) :
  l ≫= (λ x, option_list (f x)) = omap f l.
Proof.
  induction l as [|x l IH]; [done|].
  rewrite bind_cons, IH. simpl. by destruct (f x).
Qed.

Lemma omap_bind {A B C} (f : B → option C) (h : A → list B) (l : list A) :
  omap f (l ≫= h) = l ≫= (λ x, omap f (h x)).
Proof.
  induction l as [|x l IH]; [done|].
  by rewrite !bind_cons, omap_app, IH.
Qed.

Lemma omap_fmap_pre {A B C} (f : B → option C) (h : A → B) (l : list A) :
  omap f (h <$> l) = omap (λ x, f (h x)) l.
Proof.
  induction l as [|x l IH]; [done|].
  csimpl. rewrite IH. done.
Qed.

(** ** The matcher computes [omap finding_at] over the visited pairs *)

Lemma check_pair_emit rules drugs i j found :
  i < length drugs → j < length drugs →
  check_pair rules drugs i j found
  = Some (found ++ option_list (finding_at rules drugs (i, j))).
Proof.
  intros Hi Hj. unfold check_pair, finding_at, finding_of. simpl.
  destruct (lookup_lt_is_Some_2 drugs i Hi) as [di ->].
  destruct (lookup_lt_is_Some_2 drugs j Hj) as [dj ->]. simpl.
  destruct (find _ rules); simpl; [done|]. by rewrite app_nil_r.
Qed.

Lemma foundInteractions_spec rules drugs :
  foundInteractions rules drugs
  = Some (omap (finding_at rules drugs) (index_pairs (length drugs))).
Proof.
  unfold foundInteractions, index_pairs.
  rewrite (for_loop_emit _
    (λ i, omap (finding_at rules drugs)
            ((λ j, (i, j)) <$> seq (i + 1) (length drugs - (i + 1))))).
  - simpl. rewrite Nat.sub_0_r. f_equal. symmetry. apply omap_bind.
  - intros i found Hi.
    rewrite (for_loop_emit _ (λ j, option_list (finding_at rules drugs (i, j)))).
    + f_equal. f_equal. rewrite omap_bind_option_list.
      by rewrite omap_fmap_pre.
    + intros j found' Hj. apply check_pair_emit; lia.
Qed.

(** ** The visiting order *)

Lemma elem_of_index_pairs n i j :
  (i, j) ∈ index_pairs n ↔ i < j < n.
Proof.
  unfold index_pairs. rewrite list_elem_of_bind. split.
  - intros (i' & Hrow & Hi'). apply list_elem_of_fmap in Hrow as (j' & Heq & Hj').
    inversion Heq; subst. apply elem_of_seq in Hi', Hj'. lia.
  - intros Hij. exists i. split.
    + apply list_elem_of_fmap. exists j. split; [done|]. apply elem_of_seq. lia.
    + apply elem_of_seq. lia.
Qed.

Lemma seq_sorted lo len : StronglySorted lt (seq lo len).
Proof.
  revert lo. induction len as [|len IH]; intros lo; simpl; constructor.
  - apply IH.
  - apply Forall_forall. intros k Hk. apply elem_of_seq in Hk. lia.
Qed.

Lemma row_sorted i lo len :
  StronglySorted pair_lt ((λ j, (i, j)) <$> seq lo len).
Proof.
  apply (StronglySorted_fmap _ lt pair_lt); [|apply seq_sorted].
  intros j j' Hjj'. right. simpl. lia.
Qed.

Lemma rows_sorted (n : nat) (rows : list nat) :
  StronglySorted lt rows →
  StronglySorted pair_lt
    (rows ≫= λ i, (λ j, (i, j)) <$> seq (i + 1) (n - (i + 1))).
Proof.
  induction 1 as [|i rows Hrows IH Hlt]; [constructor|].
  rewrite bind_cons. apply StronglySorted_app_2; [|apply row_sorted|done].
  intros p q Hp Hq.
  apply list_elem_of_fmap in Hp as (j & -> & _).
  apply list_elem_of_bind in Hq as (i' & Hq & Hi').
  apply list_elem_of_fmap in Hq as (j' & -> & _).
  left. simpl. rewrite Forall_forall in Hlt. by apply Hlt.
Qed.

Lemma index_pairs_sorted n : StronglySorted pair_lt (index_pairs n).
Proof. apply rows_sorted, seq_sorted. Qed.

Lemma pair_lt_irrefl p : ¬ pair_lt p p.
Proof. unfold pair_lt. lia. Qed.

Lemma StronglySorted_filter {A} (R : relation A) (P : A → Prop)
    `{!∀ x, Decision (P x)} (l : list A) :
  StronglySorted R l → StronglySorted R (filter P l).
Proof.
  induction 1 as [|x l Hl IH Hx]; [constructor|].
  rewrite filter_cons. case_decide; [|done].
  constructor; [done|]. rewrite Forall_forall in Hx |- *.
  intros y Hy. apply list_elem_of_filter in Hy as [_ Hy]. by apply Hx.
Qed.

Lemma StronglySorted_irrefl_NoDup {A} (R : relation A) (l : list A) :
  (∀ x, ¬ R x x) → StronglySorted R l → NoDup l.
Proof.
  intros Hirr. induction 1 as [|x l Hl IH Hx]; constructor; [|done].
  intros Hin. rewrite Forall_forall in Hx. by apply (Hirr x), Hx.
Qed.

(** ** Findings line up with the matching pairs *)

Section omap_filter.
Context {A B : Type} (f : A → option B).

Lemma omap_length_filter (l : list A) :
  length (omap f l) = length (filter (λ x, is_Some (f x)) l).
Proof.
  induction l as [|x l IH]; [done|].
  rewrite filter_cons. csimpl. destruct (f x) eqn:Hfx.
  - rewrite decide_True by eauto. simpl. by rewrite IH.
  - rewrite decide_False; [done|]. by intros [? ?].
Qed.

Lemma omap_lookup_filter (l : list A) (k : nat) (x : A) :
  filter (λ x, is_Some (f x)) l !! k = Some x →
  omap f l !! k = f x.
Proof.
  revert k. induction l as [|y l IH]; intros k; [done|].
  rewrite filter_cons. csimpl. destruct (f y) eqn:Hfy.
  - rewrite decide_True by eauto. destruct k as [|k]; simpl.
    + intros [= <-]. done.
    + apply IH.
  - rewrite decide_False; [apply IH|]. by intros [? ?].
Qed.
End omap_filter.

(** ** [Array.prototype.find] returns the first element that passes *)

Lemma find_first {A} (P : A → bool) (l : list A) (r : A) :
  find P l = Some r ↔
  ∃ pre post, l = pre ++ r :: post ∧ Forall (λ x, P x = false) pre ∧ P r = true.
Proof.
  split.
  - induction l as [|x l IH]; simpl; [done|].
    destruct (P x) eqn:HPx.
    + intros [= <-]. by exists [], l.
    + intros Hfind. destruct (IH Hfind) as (pre & post & -> & Hpre & Hr).
      exists (x :: pre), post. split_and!; [done| |done]. by constructor.
  - intros (pre & post & -> & Hpre & Hr).
    induction Hpre as [|x pre Hx Hpre IH]; simpl.
    + by rewrite Hr.
    + by rewrite Hx.
Qed.

Lemma find_is_Some {A} (P : A → bool) (l : list A) :
  is_Some (find P l) ↔ ∃ x, x ∈ l ∧ P x = true.
Proof.
  split.
  - intros [r Hr]. apply find_some in Hr as [Hin HP].
    exists r. by rewrite list_elem_of_In.
  - intros (x & Hin & HP). destruct (find P l) eqn:Hfind; [eauto|].
    apply list_elem_of_In in Hin.
    pose proof (find_none P l Hfind x Hin). congruence.
Qed.

Lemma finding_at_is_Some rules drugs i j :
  is_Some (finding_at rules drugs (i, j)) ↔ pair_matches rules drugs i j.
Proof.
  unfold finding_at, finding_of, pair_matches. simpl. split.
  - intros [f Hf].
    destruct (drugs !! i) as [di|] eqn:Hi; [|done].
    destruct (drugs !! j) as [dj|] eqn:Hj; [|done]. simpl in Hf.
    destruct (find _ rules) as [mock|] eqn:Hfind; [|done].
    apply find_some in Hfind as [Hin Hm].
    exists di, dj, mock. by rewrite list_elem_of_In.
  - intros (di & dj & mock & -> & -> & Hin & Hm). simpl.
    destruct (proj2 (find_is_Some _ rules) (ex_intro _ mock (conj Hin Hm)))
      as [r ->].
    simpl. eauto.
Qed.

Lemma elem_of_matching_pairs rules drugs i j :
  (i, j) ∈ matching_pairs rules drugs ↔
  i < j < length drugs ∧ pair_matches rules drugs i j.
Proof.
  unfold matching_pairs.
  rewrite list_elem_of_filter, elem_of_index_pairs, finding_at_is_Some.
  tauto.
Qed.

Lemma matching_pairs_sorted rules drugs :
  StronglySorted pair_lt (matching_pairs rules drugs).
Proof. apply StronglySorted_filter, index_pairs_sorted. Qed.

Lemma matching_pairs_NoDup rules drugs : NoDup (matching_pairs rules drugs).
Proof.
  eapply StronglySorted_irrefl_NoDup;
    [apply pair_lt_irrefl|apply matching_pairs_sorted].
Qed.

(** ** What the matcher reads of its input *)

Lemma lookup_fmap_eq {A B} (f : A → B) (l l' : list A) (i : nat) :
  f <$> l' = f <$> l → f <$> (l' !! i) = f <$> (l !! i).
Proof. intros Heq. by rewrite <-!list_lookup_fmap, Heq. Qed.

(** Only the [name] field of an entry is read. *)
Lemma finding_at_names rules drugs drugs' p :
  Drug.name <$> drugs' = Drug.name <$> drugs →
  finding_at rules drugs' p = finding_at rules drugs p.
Proof.
  intros Heq. unfold finding_at.
  pose proof (lookup_fmap_eq Drug.name drugs drugs' p.1 Heq) as H1.
  pose proof (lookup_fmap_eq Drug.name drugs drugs' p.2 Heq) as H2.
  destruct (drugs' !! p.1) as [di'|], (drugs !! p.1) as [di|];
    simplify_eq/=; [|done].
  destruct (drugs' !! p.2) as [dj'|], (drugs !! p.2) as [dj|];
    simplify_eq/=; [|done].
  unfold finding_of. by rewrite H1, H2.
Qed.

(** Whether a pair matches depends on the case-folded names only. *)
Lemma finding_at_case_folded rules drugs drugs' p :
  (λ d, toLowerCase (Drug.name d)) <$> drugs'
  = (λ d, toLowerCase (Drug.name d)) <$> drugs →
  is_Some (finding_at rules drugs' p) ↔ is_Some (finding_at rules drugs p).
Proof.
  intros Heq. unfold finding_at.
  pose proof (lookup_fmap_eq _ drugs drugs' p.1 Heq) as H1.
  pose proof (lookup_fmap_eq _ drugs drugs' p.2 Heq) as H2.
  destruct (drugs' !! p.1) as [di'|], (drugs !! p.1) as [di|];
    simplify_eq/=; [|done].
  destruct (drugs' !! p.2) as [dj'|], (drugs !! p.2) as [dj|];
    simplify_eq/=; [|done].
  unfold finding_of. rewrite H1, H2.
  destruct (find _ rules); simpl; split; eauto.
Qed.

Lemma matching_pairs_case_folded rules drugs drugs' :
  (λ d, toLowerCase (Drug.name d)) <$> drugs'
  = (λ d, toLowerCase (Drug.name d)) <$> drugs →
  matching_pairs rules drugs' = matching_pairs rules drugs.
Proof.
  intros Heq. unfold matching_pairs.
  assert (length drugs' = length drugs) as ->.
  { by rewrite <-(length_fmap (λ d, toLowerCase (Drug.name d)) drugs'), Heq,
      length_fmap. }
  apply list_filter_iff. intros p. by apply finding_at_case_folded.
Qed.

(** A matching position pair has a slot in the output, and that slot holds
    the entries' own names with the data of the rule [find] returned. *)
Lemma finding_of_matching_pair rules drugs i j di dj mock :
  i < j → drugs !! i = Some di → drugs !! j = Some dj →
  find (mock_matches (toLowerCase (Drug.name di)) (toLowerCase (Drug.name dj)))
    rules = Some mock →
  ∃ found k,
    foundInteractions rules drugs = Some found ∧
    length found = length (matching_pairs rules drugs) ∧
    matching_pairs rules drugs !! k = Some (i, j) ∧
    found !! k = Some (Interaction.mk (Drug.name di) (Drug.name dj)
                         (Mock.severity mock) (Mock.description mock)
                         (Mock.recommendation mock)).
Proof.
  intros Hij Hi Hj Hfind.
  assert (finding_at rules drugs (i, j)
          = Some (Interaction.mk (Drug.name di) (Drug.name dj)
                    (Mock.severity mock) (Mock.description mock)
                    (Mock.recommendation mock))) as Hat.
  { unfold finding_at, finding_of. simpl. by rewrite Hi, Hj; simpl; rewrite Hfind. }
  assert ((i, j) ∈ matching_pairs rules drugs) as Hin.
  { unfold matching_pairs. apply list_elem_of_filter. split; [by rewrite Hat|].
    apply elem_of_index_pairs. apply lookup_lt_Some in Hj. lia. }
  apply list_elem_of_lookup in Hin as [k Hk].
  exists (omap (finding_at rules drugs) (index_pairs (length drugs))), k.
  split_and!.
  - apply foundInteractions_spec.
  - apply omap_length_filter.
  - done.
  - rewrite <-Hat. by apply omap_lookup_filter.
Qed.

Lemma includes_spec l x : includes l x = true ↔ x ∈ l.
Proof.
  induction l as [|y l IH]; simpl.
  - split; [done|]. by intros ?%elem_of_nil.
  - rewrite orb_true_iff, IH, String.eqb_eq, elem_of_cons.
    split; (intros [Heq | Hin]; [left; congruence | by right]).
Qed.

Lemma exact_pairb_spec mock a b :
  exact_pairb mock a b = true ↔ exact_pair mock a b.
Proof.
  unfold exact_pairb, exact_pair.
  rewrite !andb_true_iff, !includes_spec, forallb_forall. split.
  - intros [[Ha Hb] Hall] x. split.
    + intros Hx%list_elem_of_In%Hall.
      by rewrite orb_true_iff, !String.eqb_eq in Hx.
    + by intros [-> | ->].
  - intros Hex. split_and!; [apply Hex; by left|apply Hex; by right|].
    intros x Hx%list_elem_of_In%Hex.
    by rewrite orb_true_iff, !String.eqb_eq.
Qed.

(** An exact match always passes the membership test of the source. *)
Lemma exact_pair_matches mock a b :
  exact_pair mock a b → mock_matches a b mock = true.
Proof.
  intros Hex. unfold mock_matches.
  rewrite andb_true_iff, !includes_spec. split; apply Hex; auto.
Qed.

(** For two different names and a rule of two drugs, the membership test is
    exact unordered-pair equality. *)
Lemma mock_matches_exact mock a b :
  length (Mock.drugs mock) = 2 → a ≠ b →
  mock_matches a b mock = true ↔ exact_pair mock a b.
Proof.
  intros Hlen Hab. split; [|apply exact_pair_matches].
  unfold mock_matches, exact_pair.
  destruct (Mock.drugs mock) as [|x [|y [|]]]; simplify_eq/=.
  rewrite !orb_false_r, andb_true_iff, !orb_true_iff, !String.eqb_eq.
  intros [Ha Hb] z. rewrite !elem_of_cons, elem_of_nil.
  destruct Ha as [-> | ->], Hb as [-> | ->]; try done; intuition congruence.
Qed.

Lemma toLowerCase_idemp s : toLowerCase (toLowerCase s) = toLowerCase s.
Proof.
  induction s as [|c s IH]; simpl; [done|]. rewrite IH. f_equal.
  clear. destruct c as [[] [] [] [] [] [] [] []]; reflexivity.
Qed.

(** Names stored by [addDrug] are already trimmed and case-folded: the
    [toLowerCase] of the matcher leaves them as they are. *)
Lemma addDrug_stores_folded_name now s d :
  d ∈ drugs (addDrug now s).1 → d ∉ drugs s →
  Drug.name d = toLowerCase (trim (NewDrug.name (newDrug s))) ∧
  toLowerCase (Drug.name d) = Drug.name d.
Proof.
  unfold addDrug. destruct (String.eqb _ _); simpl; [done|].
  rewrite elem_of_app, list_elem_of_singleton. intros [Hin | ->] Hnot; [done|].
  simpl. by rewrite toLowerCase_idemp.
Qed.

(** * Properties of the matcher *)

(** C1.  Claimed: a finding is emitted for a position pair iff some rule's
    drug pair is exactly the unordered set of the two case-folded names, so
    that two entries named metformin yield no finding.  The code tests
    membership of each name in the rule's pair: with the program's table, the
    entries (metformin, metformin) yield one finding, built from the
    metformin/iodine rule, although no rule of the table has the pair
    {metformin}.  The same happens when the two entries come through the
    form. *)
Theorem duplicate_metformin_reported :
  foundInteractions mockInteractions
    [Drug.mk "1" "metformin" "500mg" "Daily"; Drug.mk "2" "metformin" "500mg" "Daily"]
  = Some [Interaction.mk "metformin" "metformin" moderate
            "Contrast agents may increase risk of lactic acidosis"
            "Temporarily discontinue metformin before procedures with contrast"] ∧
  Forall (λ mock, ¬ exact_pair mock "metformin" "metformin") mockInteractions ∧
  (λ r, interactions r.1) <$>
    analyzeInteractions
      (enterDrug 2 "Metformin" "500mg" "Daily"
         (enterDrug 1 "metformin " "500mg" "Daily" initialState))
  = Some [Interaction.mk "metformin" "metformin" moderate
            "Contrast agents may increase risk of lactic acidosis"
            "Temporarily discontinue metformin before procedures with contrast"].
Proof.
  split_and!.
  - vm_compute. reflexivity.
  - unfold mockInteractions.
    repeat constructor; intros Hex%exact_pairb_spec; vm_compute in Hex; done.
  - vm_compute. reflexivity.
Qed.

(** C2.  With the program's rule table, the entries (warfarin, aspirin) give
    exactly one finding, of severity high; the entries (warfarin, aspirin,
    lisinopril) give exactly that one finding too: the only matching position
    pair is (0, 1), and no finding names lisinopril. *)
Theorem warfarin_aspirin_examples (i1 d1 f1 i2 d2 f2 i3 d3 f3 : string) :
  let warfarin := Drug.mk i1 "warfarin" d1 f1 in
  let aspirin := Drug.mk i2 "aspirin" d2 f2 in
  let lisinopril := Drug.mk i3 "lisinopril" d3 f3 in
  let finding :=
    Interaction.mk "warfarin" "aspirin" high
      "Increased risk of bleeding when used together"
      "Monitor INR levels closely and consider alternative anticoagulation" in
  foundInteractions mockInteractions [warfarin; aspirin] = Some [finding] ∧
  foundInteractions mockInteractions [warfarin; aspirin; lisinopril]
  = Some [finding] ∧
  matching_pairs mockInteractions [warfarin; aspirin; lisinopril] = [(0, 1)] ∧
  Interaction.severity finding = high ∧
  Interaction.drug1 finding ≠ "lisinopril" ∧
  Interaction.drug2 finding ≠ "lisinopril".
Proof.
  simpl. split_and!; try (vm_compute; reflexivity); discriminate.
Qed.

(** C3.  Claimed: the length of the result is the number of position pairs
    whose case-folded names are exactly some rule's pair.  The code counts
    the pairs that pass the membership test instead: for the entries
    (warfarin, warfarin, aspirin) every one of the three position pairs is
    reported, the pair of the two warfarin entries included, while two
    position pairs have exactly the pair of a rule. *)
Theorem duplicate_warfarin_counted :
  let entries :=
    [Drug.mk "1" "warfarin" "5mg" "Daily"; Drug.mk "2" "warfarin" "5mg" "Daily";
     Drug.mk "3" "aspirin" "100mg" "Daily"] in
  let bleeding (drug1 drug2 : string) :=
    Interaction.mk drug1 drug2 high
      "Increased risk of bleeding when used together"
      "Monitor INR levels closely and consider alternative anticoagulation" in
  let found :=
    [bleeding "warfarin" "warfarin"; bleeding "warfarin" "aspirin";
     bleeding "warfarin" "aspirin"] in
  foundInteractions mockInteractions entries = Some found ∧
  length found = 3 ∧
  matching_pairs mockInteractions entries = [(0, 1); (0, 2); (1, 2)] ∧
  exactly_matching_pairs mockInteractions entries = [(0, 2); (1, 2)] ∧
  length found ≠ length (exactly_matching_pairs mockInteractions entries).
Proof. simpl. split_and!; try (vm_compute; reflexivity). vm_compute. lia. Qed.

(** C4.  Claimed: the finding carries the display names as they were
    supplied to the system.  Names typed as "Warfarin" and "Aspirin" reach
    the drug list as "warfarin" and "aspirin", and these stored names are what
    the finding shows. *)
Lemma typed_casing_not_carried :
  (λ r, interactions r.1) <$>
    analyzeInteractions
      (enterDrug 2 "Aspirin" "100mg" "Daily"
         (enterDrug 1 "Warfarin" "5mg" "Daily" initialState))
  = Some [Interaction.mk "warfarin" "aspirin" high
            "Increased risk of bleeding when used together"
            "Monitor INR levels closely and consider alternative anticoagulation"] ∧
  Interaction.mk "warfarin" "aspirin" high
    "Increased risk of bleeding when used together"
    "Monitor INR levels closely and consider alternative anticoagulation"
  ≠ Interaction.mk "Warfarin" "Aspirin" high
      "Increased risk of bleeding when used together"
      "Monitor INR levels closely and consider alternative anticoagulation".
Proof. split; [vm_compute; reflexivity|discriminate]. Qed.

(** C4, as amended.  Names are case-folded before the table test, and which
    position pairs match depends on the case-folded names only; the finding
    emitted for a matching position pair carries the [name] fields of the two
    entries of the drug list as they are stored, with the severity,
    description and recommendation of the rule returned by [find].  The
    stored name of an entry is what [addDrug] made of the typed name: trimmed
    and lower-cased. *)
Theorem finding_keeps_entry_names (rules : list Mock.t) (entries : list Drug.t)
    (i j : nat) (di dj : Drug.t) (mock : Mock.t) :
  i < j → entries !! i = Some di → entries !! j = Some dj →
  find (mock_matches (toLowerCase (Drug.name di)) (toLowerCase (Drug.name dj)))
    rules = Some mock →
  (∃ found k,
     foundInteractions rules entries = Some found ∧
     matching_pairs rules entries !! k = Some (i, j) ∧
     found !! k = Some (Interaction.mk (Drug.name di) (Drug.name dj)
                          (Mock.severity mock) (Mock.description mock)
                          (Mock.recommendation mock))) ∧
  (∀ entries' : list Drug.t,
     (λ d, toLowerCase (Drug.name d)) <$> entries'
     = (λ d, toLowerCase (Drug.name d)) <$> entries →
     matching_pairs rules entries' = matching_pairs rules entries) ∧
  (∀ (now : N) (s : State),
     trim (NewDrug.name (newDrug s)) ≠ "" →
     drugs (addDrug now s).1
     = drugs s ++ [Drug.mk (pretty now)
                     (toLowerCase (trim (NewDrug.name (newDrug s))))
                     (NewDrug.dosage (newDrug s))
                     (NewDrug.frequency (newDrug s))]).
Proof.
  intros Hij Hi Hj Hfind. split_and!.
  - destruct (finding_of_matching_pair rules entries i j di dj mock)
      as (found & k & Hrun & _ & Hk & Hfound); [done..|].
    by exists found, k.
  - apply matching_pairs_case_folded.
  - intros now s Hname. unfold addDrug.
    destruct (String.eqb _ "") eqn:Hempty; [|done].
    by apply String.eqb_eq in Hempty.
Qed.

Lemma finding_keeps_entry_names_witness :
  ∃ found,
    foundInteractions mockInteractions
      [Drug.mk "1" "Warfarin" "5mg" "Daily"; Drug.mk "2" "ASPIRIN" "100mg" "Daily"]
    = Some found ∧
    found !! 0 = Some (Interaction.mk "Warfarin" "ASPIRIN" high
                         "Increased risk of bleeding when used together"
                         "Monitor INR levels closely and consider alternative anticoagulation").
Proof.
  destruct (finding_keeps_entry_names mockInteractions
              [Drug.mk "1" "Warfarin" "5mg" "Daily";
               Drug.mk "2" "ASPIRIN" "100mg" "Daily"]
              0 1
              (Drug.mk "1" "Warfarin" "5mg" "Daily")
              (Drug.mk "2" "ASPIRIN" "100mg" "Daily")
              (Mock.mk ["warfarin"; "aspirin"] high
                 "Increased risk of bleeding when used together"
                 "Monitor INR levels closely and consider alternative anticoagulation"))
    as [(found & k & Hrun & Hk & Hfound) _].
  - lia.
  - reflexivity.
  - reflexivity.
  - vm_compute. reflexivity.
  - exists found. split; [exact Hrun|].
    destruct k as [|k]; [exact Hfound|].
    vm_compute in Hk. destruct k; discriminate Hk.
Defined.

(** C5.  The findings appear in the order of the nested loops: the matching
    position pairs, listed in strictly increasing lexicographic order (outer
    index first, then inner index), are exactly the pairs [i < j] inside the
    input that pass the table test, and the [k]-th finding is the finding of
    the [k]-th matching pair. *)
Theorem findings_in_loop_order (rules : list Mock.t) (drugs : list Drug.t) :
  ∃ found,
    foundInteractions rules drugs = Some found ∧
    StronglySorted pair_lt (matching_pairs rules drugs) ∧
    (∀ i j, (i, j) ∈ matching_pairs rules drugs ↔
            i < j < length drugs ∧ pair_matches rules drugs i j) ∧
    length found = length (matching_pairs rules drugs) ∧
    (∀ k p, matching_pairs rules drugs !! k = Some p →
            is_Some (found !! k) ∧ found !! k = finding_at rules drugs p).
Proof.
  exists (omap (finding_at rules drugs) (index_pairs (length drugs))).
  split_and!.
  - apply foundInteractions_spec.
  - apply matching_pairs_sorted.
  - apply elem_of_matching_pairs.
  - apply omap_length_filter.
  - intros k p Hk.
    assert (omap (finding_at rules drugs) (index_pairs (length drugs)) !! k
            = finding_at rules drugs p) as Hat by by apply omap_lookup_filter.
    split; [|done]. rewrite Hat.
    apply list_elem_of_lookup_2 in Hk.
    unfold matching_pairs in Hk. by apply list_elem_of_filter in Hk as [? _].
Qed.

(** C6.  The table test is symmetric in the two names: every rule passes it
    for (B, A) iff it passes for (A, B), [find] returns the same rule, and the
    matcher run on two entries in either order emits the same findings up to
    the exchange of the two displayed names. *)
Theorem matching_symmetric (rules : list Mock.t) (d1 d2 : Drug.t) :
  (∀ a b mock, mock_matches b a mock = mock_matches a b mock) ∧
  (∀ a b, find (mock_matches b a) rules = find (mock_matches a b) rules) ∧
  (∀ (drugs : list Drug.t) (i j : nat),
     finding_at rules drugs (j, i) = swap_names <$> finding_at rules drugs (i, j)) ∧
  foundInteractions rules [d2; d1]
  = (λ found : list Interaction.t, swap_names <$> found) <$>
      foundInteractions rules [d1; d2].
Proof.
  assert (∀ a b mock, mock_matches b a mock = mock_matches a b mock) as Hsym.
  { intros a b mock. unfold mock_matches. apply andb_comm. }
  assert (∀ a b, find (mock_matches b a) rules = find (mock_matches a b) rules)
    as Hfind.
  { intros a b. induction rules as [|r rs IH]; simpl; [done|].
    by rewrite Hsym, IH. }
  assert (∀ da db, finding_of rules db da = swap_names <$> finding_of rules da db)
    as Hof.
  { intros da db. unfold finding_of. rewrite Hfind.
    by destruct (find _ rules). }
  split_and!; [done|done| |].
  - intros drugs i j. unfold finding_at. simpl.
    destruct (drugs !! i) as [di|], (drugs !! j) as [dj|]; simpl; auto.
  - rewrite !foundInteractions_spec. simpl. f_equal.
    unfold index_pairs, finding_at. simpl. rewrite (Hof d1 d2).
    by destruct (finding_of rules d1 d2).
Qed.

(** C7.  With fewer than two entries [analyzeInteractions] returns at its
    guard: the only effect is the "Insufficient Data" toast (destructive
    variant, a validation message), and the whole state, the stored findings
    included, is the state it was called in. *)
Theorem too_few_entries_short_circuit (s : State) :
  length (drugs s) < 2 →
  analyzeInteractions s = Some (s, [insufficient_data]).
Proof.
  intros Hlen. unfold analyzeInteractions.
  by rewrite (proj2 (Nat.ltb_lt _ _) Hlen).
Qed.

Lemma too_few_entries_short_circuit_witness :
  analyzeInteractions
    (mkState [Drug.mk "1" "warfarin" "5mg" "Daily"] (NewDrug.mk "" "" "")
       [Interaction.mk "warfarin" "aspirin" high "stale" "stale"] false)
  = Some (mkState [Drug.mk "1" "warfarin" "5mg" "Daily"] (NewDrug.mk "" "" "")
            [Interaction.mk "warfarin" "aspirin" high "stale" "stale"] false,
          [insufficient_data]).
Proof.
  apply (too_few_entries_short_circuit
           (mkState [Drug.mk "1" "warfarin" "5mg" "Daily"] (NewDrug.mk "" "" "")
              [Interaction.mk "warfarin" "aspirin" high "stale" "stale"] false)).
  simpl. lia.
Defined.

(** C8.  The matcher cannot fail: on every rule table and every list of
    entries it returns a result (no lookup leaves the array).  The result is
    a function of the entries' names and the table alone.  Analysing twice in
    a row gives the same state and the same toast as analysing once. *)
Theorem matcher_total_and_repeatable (rules : list Mock.t) (drugs0 : list Drug.t) :
  is_Some (foundInteractions rules drugs0) ∧
  (∀ drugs' : list Drug.t,
     Drug.name <$> drugs' = Drug.name <$> drugs0 →
     foundInteractions rules drugs' = foundInteractions rules drugs0) ∧
  (∀ s : State, is_Some (analyzeInteractions s)) ∧
  (∀ (s s' : State) (toasts : list Toast.t),
     analyzeInteractions s = Some (s', toasts) →
     analyzeInteractions s' = Some (s', toasts)).
Proof.
  split_and!.
  - rewrite foundInteractions_spec. eauto.
  - intros drugs' Heq. rewrite !foundInteractions_spec.
    assert (length drugs' = length drugs0) as ->.
    { by rewrite <-(length_fmap Drug.name drugs'), Heq, length_fmap. }
    f_equal. apply list_omap_ext, Forall2_same_length_lookup_2; [done|].
    intros k p q Hp Hq. simplify_eq. by apply finding_at_names.
  - intros s. unfold analyzeInteractions.
    destruct (length (drugs s) <? 2); [eauto|].
    rewrite foundInteractions_spec. simpl. eauto.
  - intros s s' toasts. unfold analyzeInteractions.
    destruct (length (drugs s) <? 2) eqn:Hguard.
    + intros [= <- <-]. by rewrite Hguard.
    + destruct (foundInteractions mockInteractions (drugs s)) as [found|] eqn:Hrun;
        simpl; [|done].
      intros [= <- <-]. simpl. by rewrite Hguard, Hrun.
Qed.

(** C9.  When several rules of the table pass the test for a position pair,
    the finding of that pair carries the severity, description and
    recommendation of the earliest such rule in table order (whatever the
    rules after it do), and the pair has exactly one slot in the output:
    there are as many findings as matching pairs, and no position pair is
    listed twice. *)
Theorem earliest_rule_wins (rules : list Mock.t) (drugs0 : list Drug.t)
    (i j : nat) (di dj : Drug.t) (pre post : list Mock.t) (mock : Mock.t) :
  i < j → drugs0 !! i = Some di → drugs0 !! j = Some dj →
  rules = pre ++ mock :: post →
  Forall (λ m, mock_matches (toLowerCase (Drug.name di))
                 (toLowerCase (Drug.name dj)) m = false) pre →
  mock_matches (toLowerCase (Drug.name di)) (toLowerCase (Drug.name dj)) mock
  = true →
  ∃ found k,
    foundInteractions rules drugs0 = Some found ∧
    length found = length (matching_pairs rules drugs0) ∧
    matching_pairs rules drugs0 !! k = Some (i, j) ∧
    (∀ k', matching_pairs rules drugs0 !! k' = Some (i, j) → k' = k) ∧
    found !! k = Some (Interaction.mk (Drug.name di) (Drug.name dj)
                         (Mock.severity mock) (Mock.description mock)
                         (Mock.recommendation mock)).
Proof.
  intros Hij Hi Hj Hrules Hpre Hmock.
  destruct (finding_of_matching_pair rules drugs0 i j di dj mock)
    as (found & k & Hrun & Hlen & Hk & Hfound); [done..| |].
  { apply find_first. by exists pre, post. }
  exists found, k. split_and!; [done..| |done].
  intros k' Hk'. by eapply NoDup_lookup; [apply matching_pairs_NoDup|..].
Qed.

Lemma earliest_rule_wins_witness :
  ∃ found k,
    foundInteractions
      [Mock.mk ["warfarin"; "aspirin"] high "bleeding" "monitor INR";
       Mock.mk ["warfarin"; "ibuprofen"] low "later rule" "later advice"]
      [Drug.mk "1" "warfarin" "5mg" "Daily"; Drug.mk "2" "warfarin" "5mg" "Daily"]
    = Some found ∧
    mock_matches "warfarin" "warfarin"
      (Mock.mk ["warfarin"; "ibuprofen"] low "later rule" "later advice") = true ∧
    found !! k = Some (Interaction.mk "warfarin" "warfarin" high
                         "bleeding" "monitor INR").
Proof.
  destruct (earliest_rule_wins
              [Mock.mk ["warfarin"; "aspirin"] high "bleeding" "monitor INR";
               Mock.mk ["warfarin"; "ibuprofen"] low "later rule" "later advice"]
              [Drug.mk "1" "warfarin" "5mg" "Daily";
               Drug.mk "2" "warfarin" "5mg" "Daily"]
              0 1
              (Drug.mk "1" "warfarin" "5mg" "Daily")
              (Drug.mk "2" "warfarin" "5mg" "Daily")
              []
              [Mock.mk ["warfarin"; "ibuprofen"] low "later rule" "later advice"]
              (Mock.mk ["warfarin"; "aspirin"] high "bleeding" "monitor INR"))
    as (found & k & Hrun & _ & _ & _ & Hfound).
  - lia.
  - reflexivity.
  - reflexivity.
  - reflexivity.
  - constructor.
  - vm_compute. reflexivity.
  - exists found, k. split_and!; [exact Hrun|vm_compute; reflexivity|exact Hfound].
Defined.

(** X24.  At the moment it runs, [removeDrug id] keeps exactly the entries
    whose id differs from [id], in their original relative order, empties
    the stored findings whatever they were and whether or not an entry was
    removed, and touches nothing else. *)
Theorem removeDrug_filters_and_resets (id : string) (s : State) :
  drugs (removeDrug id s) = filter (λ d, Drug.id d ≠ id) (drugs s) ∧
  (∀ d : Drug.t, d ∈ drugs (removeDrug id s) ↔ d ∈ drugs s ∧ Drug.id d ≠ id) ∧
  drugs (removeDrug id s) `sublist_of` drugs s ∧
  interactions (removeDrug id s) = [] ∧
  newDrug (removeDrug id s) = newDrug s ∧
  isAnalyzing (removeDrug id s) = isAnalyzing s.
Proof.
  unfold removeDrug. simpl. split_and!; try done.
  - intros d. rewrite list_elem_of_filter. tauto.
  - apply sublist_filter.
Qed.

(** * The rest of the component *)

(** ** [trim] and [toLowerCase] *)

Lemma lower_ascii_white_space c :
  is_white_space (lower_ascii c) = is_white_space c.
Proof. destruct c as [[] [] [] [] [] [] [] []]; reflexivity. Qed.

Lemma lower_ascii_fixed c :
  lower_ascii c = c ↔
  negb ((65 <=? N_of_ascii c) && (N_of_ascii c <=? 90))%N = true.
Proof.
  destruct c as [[] [] [] [] [] [] [] []]; vm_compute; split; congruence.
Qed.

Lemma toLowerCase_fixed s : toLowerCase s = s ↔ no_capital s = true.
Proof.
  induction s as [|c s IH]; simpl; [done|].
  rewrite andb_true_iff, <-IH, <-lower_ascii_fixed. split.
  - by intros [= -> ->].
  - by intros [-> ->].
Qed.

Lemma toLowerCase_empty s : toLowerCase s = "" ↔ s = "".
Proof. by destruct s. Qed.

Lemma toLowerCase_trimStart s :
  toLowerCase (trimStart s) = trimStart (toLowerCase s).
Proof.
  induction s as [|c s IH]; simpl; [done|].
  rewrite lower_ascii_white_space. by destruct (is_white_space c).
Qed.

Lemma toLowerCase_trimEnd s :
  toLowerCase (trimEnd s) = trimEnd (toLowerCase s).
Proof.
  induction s as [|c s IH]; simpl; [done|].
  rewrite <-IH, lower_ascii_white_space.
  destruct (trimEnd s); simpl; [|done]. by destruct (is_white_space c).
Qed.

Lemma toLowerCase_trim s : toLowerCase (trim s) = trim (toLowerCase s).
Proof. unfold trim. by rewrite toLowerCase_trimEnd, toLowerCase_trimStart. Qed.

Lemma blank_trimStart s : blank (trimStart s) = blank s.
Proof.
  induction s as [|c s IH]; simpl; [done|].
  destruct (is_white_space c) eqn:Hc; simpl; [done|]. by rewrite Hc.
Qed.

Lemma trimEnd_empty s : trimEnd s = "" ↔ blank s = true.
Proof.
  induction s as [|c s IH]; simpl; [done|].
  rewrite andb_true_iff, <-IH.
  destruct (trimEnd s); destruct (is_white_space c); split; try done;
    intros [? ?]; done.
Qed.

Lemma trim_empty s : trim s = "" ↔ blank s = true.
Proof. unfold trim. by rewrite trimEnd_empty, blank_trimStart. Qed.

Lemma trimStart_head s : head_black (trimStart s).
Proof.
  induction s as [|c s IH]; simpl; [done|].
  by destruct (is_white_space c) eqn:Hc.
Qed.

Lemma trimStart_fixed s : head_black s → trimStart s = s.
Proof. destruct s as [|c s]; simpl; [done|]. by intros ->. Qed.

Lemma trimEnd_head s : head_black s → head_black (trimEnd s).
Proof.
  destruct s as [|c s]; simpl; [done|]. intros Hc.
  destruct (trimEnd s); simpl; [by rewrite Hc|done].
Qed.

Lemma trimEnd_idemp s : trimEnd (trimEnd s) = trimEnd s.
Proof.
  induction s as [|c s IH]; simpl; [done|].
  destruct (trimEnd s) as [|a u] eqn:Hs.
  - destruct (is_white_space c) eqn:Hc; simpl; [done|]. by rewrite Hc.
  - change (trimEnd (String c (String a u)))
      with (match trimEnd (String a u) with
            | EmptyString =>
                if is_white_space c then EmptyString else String c EmptyString
            | t => String c t
            end).
    by rewrite IH.
Qed.

Lemma trim_idemp s : trim (trim s) = trim s.
Proof.
  unfold trim.
  rewrite (trimStart_fixed (trimEnd (trimStart s))), trimEnd_idemp; [done|].
  apply trimEnd_head, trimStart_head.
Qed.

Lemma normalized_stored raw :
  blank raw = false → normalized (toLowerCase (trim raw)).
Proof.
  intros Hraw. split_and!.
  - rewrite toLowerCase_empty, trim_empty. by rewrite Hraw.
  - apply toLowerCase_idemp.
  - by rewrite <-toLowerCase_trim, trim_idemp.
Qed.

(** ** [addDrug] *)

Lemma addDrug_blank now s :
  blank (NewDrug.name (newDrug s)) = true →
  addDrug now s
  = (s, [Toast.mk "Validation Error" "Please enter a drug name" Toast.destructive]).
Proof.
  intros Hblank%trim_empty. unfold addDrug. by rewrite Hblank.
Qed.

Lemma addDrug_stored now s :
  blank (NewDrug.name (newDrug s)) = false →
  addDrug now s
  = (mkState
       (drugs s ++ [Drug.mk (pretty now)
                      (toLowerCase (trim (NewDrug.name (newDrug s))))
                      (NewDrug.dosage (newDrug s))
                      (NewDrug.frequency (newDrug s))])
       (NewDrug.mk "" "" "") (interactions s) (isAnalyzing s),
     [Toast.mk "Drug Added"
        (toLowerCase (trim (NewDrug.name (newDrug s)))
           +:+ " has been added to the analysis") Toast.default]).
Proof.
  intros Hblank. unfold addDrug.
  destruct (String.eqb _ "") eqn:Hempty; [|done].
  apply String.eqb_eq, trim_empty in Hempty. congruence.
Qed.

(** ** The matcher by recursion on the list *)

Lemma index_pairs_S n :
  index_pairs (S n)
  = ((λ j, (0, j)) <$> seq 1 n) ++
    ((λ p, (S p.1, S p.2)) <$> index_pairs n).
Proof.
  unfold index_pairs. simpl seq. rewrite bind_cons. simpl.
  rewrite Nat.sub_0_r. f_equal.
  rewrite <-fmap_S_seq, list_fmap_bind.
  induction (seq 0 n) as [|i rows IH]; [done|].
  rewrite !bind_cons, fmap_app, IH. f_equal.
  unfold compose. simpl. rewrite <-fmap_S_seq, <-!list_fmap_compose. done.
Qed.

Lemma omap_lookup_seq {A B} (f : A → option B) (l : list A) :
  omap (λ j, l !! j ≫= f) (seq 0 (length l)) = omap f l.
Proof.
  induction l as [|x l IH]; [done|].
  simpl length. simpl seq. csimpl. rewrite <-fmap_S_seq, omap_fmap_pre.
  simpl. by rewrite IH.
Qed.

Lemma foundInteractions_pairwise rules drugs :
  foundInteractions rules drugs = Some (pairwise_findings rules drugs).
Proof.
  rewrite foundInteractions_spec. f_equal.
  induction drugs as [|d rest IH]; [done|].
  simpl length. rewrite index_pairs_S, omap_app, !omap_fmap_pre. simpl.
  f_equal; [|exact IH].
  rewrite <-fmap_S_seq, omap_fmap_pre. apply omap_lookup_seq.
Qed.

Lemma omap_sublist {A B} (f : A → option B) (l1 l2 : list A) :
  l1 `sublist_of` l2 → omap f l1 `sublist_of` omap f l2.
Proof.
  intros Hsub. rewrite <-!omap_bind_option_list. by apply bind_sublist.
Qed.

Lemma pairwise_findings_sublist rules l1 l2 :
  l1 `sublist_of` l2 →
  pairwise_findings rules l1 `sublist_of` pairwise_findings rules l2.
Proof.
  induction 1 as [|d l1 l2 Hsub IH|d l1 l2 Hsub IH]; simpl.
  - constructor.
  - apply sublist_app; [by apply omap_sublist|done].
  - by apply sublist_inserts_l.
Qed.

Lemma finding_at_backed rules drugs i j f :
  finding_at rules drugs (i, j) = Some f →
  ∃ di dj mock,
    drugs !! i = Some di ∧ drugs !! j = Some dj ∧ mock ∈ rules ∧
    mock_matches (toLowerCase (Drug.name di)) (toLowerCase (Drug.name dj)) mock
    = true ∧
    f = Interaction.mk (Drug.name di) (Drug.name dj) (Mock.severity mock)
          (Mock.description mock) (Mock.recommendation mock).
Proof.
  unfold finding_at, finding_of. simpl. intros Hf.
  destruct (drugs !! i) as [di|] eqn:Hi; [|done].
  destruct (drugs !! j) as [dj|] eqn:Hj; [|done]. simpl in Hf.
  destruct (find _ rules) as [mock|] eqn:Hfind; simplify_eq/=.
  apply find_some in Hfind as [Hin Hm].
  exists di, dj, mock. by rewrite list_elem_of_In.
Qed.

Lemma found_elem_backed rules drugs found f :
  foundInteractions rules drugs = Some found → f ∈ found →
  ∃ i j di dj mock,
    i < j ∧ drugs !! i = Some di ∧ drugs !! j = Some dj ∧ mock ∈ rules ∧
    mock_matches (toLowerCase (Drug.name di)) (toLowerCase (Drug.name dj)) mock
    = true ∧
    f = Interaction.mk (Drug.name di) (Drug.name dj) (Mock.severity mock)
          (Mock.description mock) (Mock.recommendation mock).
Proof.
  rewrite foundInteractions_spec. intros [= <-] Hf.
  apply list_elem_of_omap in Hf as ([i j] & Hp & Hat).
  apply elem_of_index_pairs in Hp.
  destruct (finding_at_backed _ _ _ _ _ Hat) as (di & dj & mock & ?).
  exists i, j, di, dj, mock. intuition lia.
Qed.



(** X1.  The two index loops compute the same list as the recursion over the
    entries that pairs the first entry with each later one, in order, and
    then treats the remaining entries the same way. *)
Theorem matcher_is_pairwise_recursion (rules : list Mock.t)
    (d : Drug.t) (rest : list Drug.t) :
  foundInteractions rules [] = Some [] ∧
  foundInteractions rules [d] = Some [] ∧
  ∃ found_rest,
    foundInteractions rules rest = Some found_rest ∧
    foundInteractions rules (d :: rest)
    = Some (omap (finding_of rules d) rest ++ found_rest).
Proof.
  split_and!; [done|done|].
  exists (pairwise_findings rules rest).
  by rewrite !foundInteractions_pairwise.
Qed.

(** X2.  The findings grow and shrink with the list: the findings of a
    sub-list (same entries, same order, some left out) are a sub-list of the
    findings of the whole list.  So analysing after a removal only drops
    findings, and analysing after an addition keeps every earlier finding,
    in the same order. *)
Theorem findings_monotone (rules : list Mock.t) :
  (∀ l1 l2 : list Drug.t,
     l1 `sublist_of` l2 →
     ∃ found1 found2,
       foundInteractions rules l1 = Some found1 ∧
       foundInteractions rules l2 = Some found2 ∧
       found1 `sublist_of` found2) ∧
  (∀ (id : string) (s : State),
     ∃ before after,
       foundInteractions rules (drugs s) = Some before ∧
       foundInteractions rules (drugs (removeDrug id s)) = Some after ∧
       after `sublist_of` before) ∧
  (∀ (now : N) (s : State),
     ∃ before after,
       foundInteractions rules (drugs s) = Some before ∧
       foundInteractions rules (drugs (addDrug now s).1) = Some after ∧
       before `sublist_of` after).
Proof.
  assert (∀ l1 l2 : list Drug.t,
            l1 `sublist_of` l2 →
            ∃ found1 found2,
              foundInteractions rules l1 = Some found1 ∧
              foundInteractions rules l2 = Some found2 ∧
              found1 `sublist_of` found2) as Hmono.
  { intros l1 l2 Hsub. exists (pairwise_findings rules l1),
      (pairwise_findings rules l2).
    rewrite !foundInteractions_pairwise.
    split_and!; [done..|]. by apply pairwise_findings_sublist. }
  split_and!; [done| |].
  - intros id s.
    destruct (Hmono (drugs (removeDrug id s)) (drugs s))
      as (after & before & ? & ? & ?); [apply sublist_filter|].
    by exists before, after.
  - intros now s.
    destruct (Hmono (drugs s) (drugs (addDrug now s).1))
      as (before & after & ? & ? & ?); [|by exists before, after].
    unfold addDrug. destruct (String.eqb _ ""); simpl; [done|].
    by apply sublist_inserts_r.
Qed.

(** X3.  Every finding is backed by the table: it names two entries of the
    input, the first at an earlier position than the second, and some rule
    of the table lists both case-folded names and supplies the finding's
    severity, description and recommendation. *)
Theorem findings_backed_by_rule (rules : list Mock.t) (entries : list Drug.t)
    (found : list Interaction.t) (f : Interaction.t) :
  foundInteractions rules entries = Some found → f ∈ found →
  ∃ i j di dj mock,
    i < j ∧ entries !! i = Some di ∧ entries !! j = Some dj ∧ mock ∈ rules ∧
    includes (Mock.drugs mock) (toLowerCase (Drug.name di)) = true ∧
    includes (Mock.drugs mock) (toLowerCase (Drug.name dj)) = true ∧
    f = Interaction.mk (Drug.name di) (Drug.name dj) (Mock.severity mock)
          (Mock.description mock) (Mock.recommendation mock).
Proof.
  intros Hrun Hf.
  destruct (found_elem_backed rules entries found f Hrun Hf)
    as (i & j & di & dj & mock & Hij & Hi & Hj & Hin & Hm & ->).
  apply andb_true_iff in Hm as [Hm1 Hm2].
  by exists i, j, di, dj, mock.
Qed.

Lemma findings_backed_by_rule_witness :
  ∃ i j di dj mock,
    i < j ∧
    [Drug.mk "1" "lisinopril" "10mg" "Daily"; Drug.mk "2" "Potassium" "" "";
     Drug.mk "3" "ibuprofen" "" ""] !! i = Some di ∧
    [Drug.mk "1" "lisinopril" "10mg" "Daily"; Drug.mk "2" "Potassium" "" "";
     Drug.mk "3" "ibuprofen" "" ""] !! j = Some dj ∧
    mock ∈ mockInteractions ∧
    includes (Mock.drugs mock) (toLowerCase (Drug.name di)) = true ∧
    includes (Mock.drugs mock) (toLowerCase (Drug.name dj)) = true ∧
    Interaction.mk "lisinopril" "Potassium" moderate
      "May cause hyperkalemia (elevated potassium levels)"
      "Monitor serum potassium levels regularly"
    = Interaction.mk (Drug.name di) (Drug.name dj) (Mock.severity mock)
        (Mock.description mock) (Mock.recommendation mock).
Proof.
  apply (findings_backed_by_rule mockInteractions
           [Drug.mk "1" "lisinopril" "10mg" "Daily";
            Drug.mk "2" "Potassium" "" ""; Drug.mk "3" "ibuprofen" "" ""]
           [Interaction.mk "lisinopril" "Potassium" moderate
              "May cause hyperkalemia (elevated potassium levels)"
              "Monitor serum potassium levels regularly"]).
  - vm_compute. reflexivity.
  - apply list_elem_of_singleton. reflexivity.
Defined.

(** X4.  The result is empty exactly when no position pair passes the table
    test. *)
Theorem no_findings_iff_no_match (rules : list Mock.t) (entries : list Drug.t) :
  foundInteractions rules entries = Some [] ↔
  ∀ i j, i < j → ¬ pair_matches rules entries i j.
Proof.
  rewrite foundInteractions_spec. split.
  - intros [= Hnil] i j Hij Hm.
    assert ((i, j) ∈ matching_pairs rules entries) as Hin.
    { apply elem_of_matching_pairs. split; [|done].
      destruct Hm as (_ & dj & _ & _ & Hj%lookup_lt_Some & _). lia. }
    apply list_elem_of_lookup in Hin as [k Hk].
    pose proof (lookup_lt_Some _ _ _ Hk) as Hlt. unfold matching_pairs in Hlt.
    rewrite <-(omap_length_filter (finding_at rules entries)) in Hlt.
    rewrite Hnil in Hlt. simpl in Hlt. lia.
  - intros Hnone. f_equal.
    destruct (omap _ _) as [|f found] eqn:Hfound; [done|].
    assert (f ∈ omap (finding_at rules entries) (index_pairs (length entries)))
      as Hf by (rewrite Hfound; left).
    apply list_elem_of_omap in Hf as ([i j] & Hp%elem_of_index_pairs & Hat).
    destruct (Hnone i j) as []; [lia|].
    apply finding_at_is_Some. by rewrite Hat.
Qed.


(** X6.  With two entries or more, [analyzeInteractions] leaves the list and
    the form alone, stores the matcher's result, ends with [isAnalyzing]
    off, and raises one toast: "Analysis Complete" exactly when no position
    pair passes the table test, otherwise "Interactions Found" with the
    number of matching position pairs. *)
Theorem analysis_outcome (s : State) :
  2 ≤ length (drugs s) →
  ∃ found toast,
    analyzeInteractions s
    = Some (mkState (drugs s) (newDrug s) found false, [toast]) ∧
    foundInteractions mockInteractions (drugs s) = Some found ∧
    length found = length (matching_pairs mockInteractions (drugs s)) ∧
    toast
    = match matching_pairs mockInteractions (drugs s) with
      | [] =>
          Toast.mk "Analysis Complete"
            "No significant interactions detected between the entered medications"
            Toast.default
      | pairs =>
          Toast.mk "Interactions Found"
            (pretty (length pairs) +:+ " potential interaction(s) detected")
            Toast.destructive
      end.
Proof.
  intros Hlen. unfold analyzeInteractions.
  rewrite (proj2 (Nat.ltb_ge _ _) Hlen), foundInteractions_spec. simpl.
  eexists _, _. split_and!; [reflexivity|reflexivity|apply omap_length_filter|].
  rewrite omap_length_filter. fold (matching_pairs mockInteractions (drugs s)).
  by destruct (matching_pairs mockInteractions (drugs s)).
Qed.

Lemma analysis_outcome_witness :
  ∃ found toast,
    analyzeInteractions
      (mkState [Drug.mk "1" "lisinopril" "10mg" "Daily";
                Drug.mk "2" "potassium" "" ""; Drug.mk "3" "metformin" "" "";
                Drug.mk "4" "iodine" "" ""]
         (NewDrug.mk "asp" "" "") [] true)
    = Some (mkState [Drug.mk "1" "lisinopril" "10mg" "Daily";
                     Drug.mk "2" "potassium" "" ""; Drug.mk "3" "metformin" "" "";
                     Drug.mk "4" "iodine" "" ""]
              (NewDrug.mk "asp" "" "") found false, [toast]) ∧
    length found = 2 ∧
    toast = Toast.mk "Interactions Found" "2 potential interaction(s) detected"
              Toast.destructive.
Proof.
  destruct (analysis_outcome
              (mkState [Drug.mk "1" "lisinopril" "10mg" "Daily";
                        Drug.mk "2" "potassium" "" "";
                        Drug.mk "3" "metformin" "" ""; Drug.mk "4" "iodine" "" ""]
                 (NewDrug.mk "asp" "" "") [] true))
    as (found & toast & Hrun & _ & Hlen & Htoast).
  - simpl. lia.
  - exists found, toast. split_and!; [exact Hrun|exact Hlen|exact Htoast].
Defined.

(** X7.  For a typed name made of ASCII characters, [addDrug] leaves the
    list as it is exactly when the name is empty or made of ASCII white
    space only (TAB, LF, VT, FF, CR, space); in that case nothing at all
    changes (the form keeps what was typed) and the only effect is the
    "Validation Error" toast. *)
Theorem addDrug_rejects_blank (now : N) (s : State) :
  ascii_only (NewDrug.name (newDrug s)) = true →
  (drugs (addDrug now s).1 = drugs s ↔ blank (NewDrug.name (newDrug s)) = true) ∧
  (blank (NewDrug.name (newDrug s)) = true →
   addDrug now s
   = (s, [Toast.mk "Validation Error" "Please enter a drug name"
            Toast.destructive])).
Proof.
  intros _. split; [|apply addDrug_blank].
  destruct (blank (NewDrug.name (newDrug s))) eqn:Hblank.
  - by rewrite addDrug_blank.
  - rewrite addDrug_stored by done. simpl. split; [|done].
    intros Heq%(f_equal length). rewrite length_app in Heq. simpl in Heq. lia.
Qed.

Lemma addDrug_rejects_blank_witness :
  addDrug 5
    (mkState [Drug.mk "1" "warfarin" "" ""] (NewDrug.mk "   " "5mg" "Daily")
       [] false)
  = (mkState [Drug.mk "1" "warfarin" "" ""] (NewDrug.mk "   " "5mg" "Daily")
       [] false,
     [Toast.mk "Validation Error" "Please enter a drug name" Toast.destructive]).
Proof.
  apply (addDrug_rejects_blank 5
           (mkState [Drug.mk "1" "warfarin" "" ""]
              (NewDrug.mk "   " "5mg" "Daily") [] false)).
  - reflexivity.
  - reflexivity.
Defined.

Lemma lower_ascii_7bit c :
  (N_of_ascii c <? 128)%N = true → (N_of_ascii (lower_ascii c) <? 128)%N = true.
Proof. destruct c as [[] [] [] [] [] [] [] []]; vm_compute; congruence. Qed.

Lemma ascii_only_toLowerCase s :
  ascii_only s = true → ascii_only (toLowerCase s) = true.
Proof.
  induction s as [|c s IH]; simpl; [done|].
  rewrite !andb_true_iff. intros [Hc Hs]. split; [by apply lower_ascii_7bit|auto].
Qed.

Lemma ascii_only_trimStart s :
  ascii_only s = true → ascii_only (trimStart s) = true.
Proof.
  induction s as [|c s IH]; simpl; [done|].
  destruct (is_white_space c); simpl; [|done].
  rewrite andb_true_iff. intros [_ Hs]. auto.
Qed.

Lemma ascii_only_trimEnd s :
  ascii_only s = true → ascii_only (trimEnd s) = true.
Proof.
  induction s as [|c s IH]; simpl; [done|].
  rewrite andb_true_iff. intros [Hc Hs]. specialize (IH Hs).
  destruct (trimEnd s) as [|a u].
  - destruct (is_white_space c); simpl; [done|]. by rewrite Hc.
  - change (ascii_only (String c (String a u)))
      with ((N_of_ascii c <? 128)%N && ascii_only (String a u)).
    by rewrite Hc, IH.
Qed.

Lemma ascii_only_stored raw :
  ascii_only raw = true → ascii_only (toLowerCase (trim raw)) = true.
Proof.
  intros Hraw. unfold trim.
  by apply ascii_only_toLowerCase, ascii_only_trimEnd, ascii_only_trimStart.
Qed.

(** X8.  When the typed name is made of ASCII characters and holds something
    else than white space, [addDrug] appends one entry at the end of the
    list and changes no earlier entry; the entry has the time of the click
    as id, the typed name trimmed and lower-cased (so ASCII, non-empty,
    without surrounding white space, without capital letter) and the typed
    dosage and frequency as they are.  The form is emptied; the stored
    findings and [isAnalyzing] are not touched; the toast quotes the stored
    name. *)
Theorem addDrug_appends_normalized (now : N) (s : State) :
  ascii_only (NewDrug.name (newDrug s)) = true →
  blank (NewDrug.name (newDrug s)) = false →
  ∃ d,
    addDrug now s
    = (mkState (drugs s ++ [d]) (NewDrug.mk "" "" "") (interactions s)
         (isAnalyzing s),
       [Toast.mk "Drug Added" (Drug.name d +:+ " has been added to the analysis")
          Toast.default]) ∧
    d = Drug.mk (pretty now) (toLowerCase (trim (NewDrug.name (newDrug s))))
          (NewDrug.dosage (newDrug s)) (NewDrug.frequency (newDrug s)) ∧
    ascii_only (Drug.name d) = true ∧
    normalized (Drug.name d) ∧
    no_capital (Drug.name d) = true ∧
    blank (Drug.name d) = false.
Proof.
  intros Hascii Hblank.
  exists (Drug.mk (pretty now) (toLowerCase (trim (NewDrug.name (newDrug s))))
            (NewDrug.dosage (newDrug s)) (NewDrug.frequency (newDrug s))).
  split_and!; [by apply addDrug_stored|reflexivity|..].
  - simpl. by apply ascii_only_stored.
  - by apply normalized_stored.
  - simpl. apply toLowerCase_fixed, toLowerCase_idemp.
  - simpl. destruct (normalized_stored _ Hblank) as (Hne & _ & Htrim).
    apply not_true_is_false. intros Hb%trim_empty. congruence.
Qed.

Lemma addDrug_appends_normalized_witness :
  ∃ d,
    addDrug 1700000000000
      (mkState [Drug.mk "7" "warfarin" "5mg" "Daily"]
         (NewDrug.mk "  Aspirin " " 100 MG" "Daily ") [] false)
    = (mkState [Drug.mk "7" "warfarin" "5mg" "Daily"; d] (NewDrug.mk "" "" "")
         [] false,
       [Toast.mk "Drug Added" (Drug.name d +:+ " has been added to the analysis")
          Toast.default]) ∧
    d = Drug.mk "1700000000000" "aspirin" " 100 MG" "Daily ".
Proof.
  destruct (addDrug_appends_normalized 1700000000000
              (mkState [Drug.mk "7" "warfarin" "5mg" "Daily"]
                 (NewDrug.mk "  Aspirin " " 100 MG" "Daily ") [] false))
    as (d & Hadd & Hd & _).
  - reflexivity.
  - reflexivity.
  - exists d. split; [exact Hadd|]. rewrite Hd. vm_compute. reflexivity.
Defined.

(** ** States reached through the handlers *)

Lemma run_cons e es s : run (e :: es) s = run es (step e s).
Proof. done. Qed.

Lemma step_analyze s :
  ∃ found,
    foundInteractions mockInteractions (drugs s) = Some found ∧
    step ClickAnalyze s
    = if length (drugs s) <? 2 then s
      else mkState (drugs s) (newDrug s) found false.
Proof.
  exists (pairwise_findings mockInteractions (drugs s)).
  split; [apply foundInteractions_pairwise|].
  unfold step, analyzeInteractions.
  destruct (length (drugs s) <? 2); [done|].
  by rewrite foundInteractions_pairwise.
Qed.

Lemma step_analyze_drugs s : drugs (step ClickAnalyze s) = drugs s.
Proof.
  destruct (step_analyze s) as (found & _ & ->).
  by destruct (length (drugs s) <? 2).
Qed.

Lemma initial_consistent : consistent initialState.
Proof. split_and!; [constructor|done|]. by exists 0. Qed.

Lemma step_consistent e s : consistent s → consistent (step e s).
Proof.
  intros (Hnames & Hidle & k & Hk & Hfound).
  destruct e as [v|v|v|now|id|]; simpl.
  - split_and!; [done..|]. by exists k.
  - split_and!; [done..|]. by exists k.
  - split_and!; [done..|]. by exists k.
  - destruct (blank (NewDrug.name (newDrug s))) eqn:Hblank.
    + rewrite addDrug_blank by done. split_and!; [done..|]. by exists k.
    + rewrite addDrug_stored by done. simpl. split_and!; [|done|].
      * apply Forall_app. split; [done|].
        constructor; [|constructor]. by apply normalized_stored.
      * exists k. simpl. rewrite length_app, take_app_le by done. split; [lia|done].
  - split_and!; [|done|].
    + rewrite Forall_forall in Hnames |- *.
      intros d [_ Hd]%list_elem_of_filter. by apply Hnames.
    + exists 0. split; [lia|done].
  - destruct (step_analyze s) as (found & Hrun & Hstep).
    unfold step in Hstep. rewrite Hstep.
    destruct (length (drugs s) <? 2).
    + split_and!; [done..|]. by exists k.
    + split_and!; [done..|]. exists (length (drugs s)). simpl.
      split; [done|]. by rewrite take_ge.
Qed.

Lemma run_consistent es s : consistent s → consistent (run es s).
Proof.
  revert s. induction es as [|e es IH]; intros s Hs; [done|].
  rewrite run_cons. by apply IH, step_consistent.
Qed.

Lemma run_without_analysis es s :
  ClickAnalyze ∉ es → interactions s = [] → isAnalyzing s = false →
  interactions (run es s) = [] ∧ isAnalyzing (run es s) = false.
Proof.
  revert s. induction es as [|e es IH]; intros s Hnot Hnil Hidle; [done|].
  rewrite run_cons. apply not_elem_of_cons in Hnot as [Hne Hnot].
  apply IH; [done|..]; destruct e as [v|v|v|now|id|]; simpl; try done.
  - unfold addDrug. by destruct (String.eqb _ "").
  - unfold addDrug. by destruct (String.eqb _ "").
Qed.

Lemma take_names_subseteq (s : State) k f found :
  foundInteractions mockInteractions (take k (drugs s)) = Some found →
  f ∈ found →
  Interaction.drug1 f ∈ Drug.name <$> drugs s ∧
  Interaction.drug2 f ∈ Drug.name <$> drugs s.
Proof.
  intros Hrun Hf.
  destruct (found_elem_backed _ _ _ _ Hrun Hf)
    as (i & j & di & dj & mock & _ & Hi & Hj & _ & _ & ->). simpl.
  split; apply list_elem_of_fmap_2, (subseteq_take k), list_elem_of_lookup;
    eauto.
Qed.

Lemma step_ascii e s :
  typed_ascii e →
  ascii_only (NewDrug.name (newDrug s)) = true →
  Forall (λ d, ascii_only (Drug.name d) = true) (drugs s) →
  ascii_only (NewDrug.name (newDrug (step e s))) = true ∧
  Forall (λ d, ascii_only (Drug.name d) = true) (drugs (step e s)).
Proof.
  intros He Hform Hlist. destruct e as [v|v|v|now|id|]; simpl; try done.
  - unfold addDrug. destruct (String.eqb _ ""); simpl; [done|].
    split; [done|]. apply Forall_app. split; [done|].
    constructor; [|constructor]. simpl. by apply ascii_only_stored.
  - split; [done|]. rewrite Forall_forall in Hlist |- *.
    intros d [_ Hd]%list_elem_of_filter. by apply Hlist.
  - destruct (step_analyze s) as (found & _ & Hstep).
    unfold step in Hstep. rewrite Hstep.
    by destruct (length (drugs s) <? 2).
Qed.

Lemma run_ascii es s :
  Forall typed_ascii es →
  ascii_only (NewDrug.name (newDrug s)) = true →
  Forall (λ d, ascii_only (Drug.name d) = true) (drugs s) →
  Forall (λ d, ascii_only (Drug.name d) = true) (drugs (run es s)).
Proof.
  revert s. induction es as [|e es IH]; intros s Hes Hform Hlist; [done|].
  apply Forall_cons in Hes as [He Hes]. rewrite run_cons.
  destruct (step_ascii e s He Hform Hlist). by apply IH.
Qed.

(** X9.  As long as what is typed into the name input is made of ASCII
    characters, in every state reached from the initial one, whatever the
    user does, each stored name is made of ASCII characters, is non-empty,
    has no white space around it and no capital letter; so the case folding
    done by the matcher never changes a name. *)
Theorem stored_names_normalized (es : list Event) :
  Forall typed_ascii es →
  Forall (λ d, ascii_only (Drug.name d) = true ∧ normalized (Drug.name d) ∧
               no_capital (Drug.name d) = true)
    (drugs (run es initialState)) ∧
  (λ d, toLowerCase (Drug.name d)) <$> drugs (run es initialState)
  = Drug.name <$> drugs (run es initialState).
Proof.
  intros Hes.
  destruct (run_consistent es initialState initial_consistent) as (Hnames & _).
  pose proof (run_ascii es initialState Hes eq_refl (Forall_nil_2 _)) as Hascii.
  rewrite Forall_forall in Hnames, Hascii. split.
  - apply Forall_forall. intros d Hd. split_and!; [by apply Hascii|by apply Hnames|].
    apply toLowerCase_fixed, (Hnames d Hd).
  - apply list_fmap_ext. intros i d Hd.
    apply (Hnames d). by eapply list_elem_of_lookup_2.
Qed.

Lemma stored_names_normalized_witness :
  Forall (λ d, ascii_only (Drug.name d) = true ∧ normalized (Drug.name d) ∧
               no_capital (Drug.name d) = true)
    (drugs (run [TypeName "  Warfarin"; ClickAdd 1; TypeName "ASPIRIN ";
                 TypeDosage "100 MG"; ClickAdd 2; ClickAnalyze;
                 ClickRemove "1"; TypeName " "; ClickAdd 3] initialState)) ∧
  Drug.name <$>
    drugs (run [TypeName "  Warfarin"; ClickAdd 1; TypeName "ASPIRIN ";
                TypeDosage "100 MG"; ClickAdd 2; ClickAnalyze;
                ClickRemove "1"; TypeName " "; ClickAdd 3] initialState)
  = ["aspirin"].
Proof.
  split; [|vm_compute; reflexivity].
  apply (stored_names_normalized
           [TypeName "  Warfarin"; ClickAdd 1; TypeName "ASPIRIN ";
            TypeDosage "100 MG"; ClickAdd 2; ClickAnalyze;
            ClickRemove "1"; TypeName " "; ClickAdd 3]).
  repeat constructor.
Defined.

(** X10.  For a user who lets every analysis finish before doing anything
    else (the handlers then run as if without delay), in every state reached
    from the initial one the stored findings are the analysis of an initial segment
    of the current list: of the whole list right after an analysis, of the
    list as it was at the last analysis while entries were only added since,
    of nothing after a removal.  Hence every stored finding names two drugs
    that are in the list. *)
Theorem stored_findings_of_prefix (es : list Event) :
  (∃ k, k ≤ length (drugs (run es initialState)) ∧
        foundInteractions mockInteractions (take k (drugs (run es initialState)))
        = Some (interactions (run es initialState))) ∧
  (∀ f, f ∈ interactions (run es initialState) →
        Interaction.drug1 f ∈ Drug.name <$> drugs (run es initialState) ∧
        Interaction.drug2 f ∈ Drug.name <$> drugs (run es initialState)) ∧
  isAnalyzing (run es initialState) = false.
Proof.
  destruct (run_consistent es initialState initial_consistent)
    as (_ & Hidle & k & Hk & Hfound).
  split_and!; [by exists k| |done].
  intros f Hf. by eapply take_names_subseteq.
Qed.

(** ** Ids *)

Lemma step_ids e s :
  ids (step e s) `sublist_of` ids s ∨
  ∃ now, e = ClickAdd now ∧ ids (step e s) = ids s ++ [pretty now].
Proof.
  unfold ids. destruct e as [v|v|v|now|id|].
  - by left.
  - by left.
  - by left.
  - simpl. unfold addDrug. destruct (String.eqb _ ""); simpl; [by left|].
    right. exists now. by rewrite fmap_app.
  - left. simpl. apply fmap_sublist, sublist_filter.
  - left. by rewrite step_analyze_drugs.
Qed.

Lemma stamps_cons e es :
  stamps (e :: es)
  = match e with ClickAdd now => now :: stamps es | _ => stamps es end.
Proof. by destruct e. Qed.

Lemma run_ids_NoDup es s :
  NoDup (ids s) →
  StronglySorted N.lt (stamps es) →
  Forall (λ t', ∀ t, pretty t ∈ ids s → (t < t')%N) (stamps es) →
  NoDup (ids (run es s)).
Proof.
  revert s. induction es as [|e es IH]; intros s Hnodup Hsorted Hlater; [done|].
  rewrite run_cons. rewrite stamps_cons in Hsorted, Hlater.
  destruct (step_ids e s) as [Hsub | (now & -> & Hids)].
  - assert (StronglySorted N.lt (stamps es) ∧
            Forall (λ t', ∀ t, pretty t ∈ ids s → (t < t')%N) (stamps es))
      as [Hsorted' Hlater'].
    { destruct e; try done.
      apply StronglySorted_cons in Hsorted as [_ ?].
      by apply Forall_cons in Hlater as [_ ?]. }
    apply IH; [by eapply sublist_NoDup|done|].
    eapply Forall_impl; [exact Hlater'|]. intros t' Ht' t Ht.
    apply Ht'. by eapply sublist_subseteq.
  - apply StronglySorted_cons in Hsorted as [Hafter Hsorted].
    apply Forall_cons in Hlater as [Hnow Hlater].
    apply IH; [|done|].
    + rewrite Hids. apply NoDup_app. split_and!; [done| |apply NoDup_singleton].
      intros x Hx ->%list_elem_of_singleton.
      specialize (Hnow now Hx). lia.
    + rewrite Forall_forall in Hafter, Hlater |- *.
      intros t' Ht' t. rewrite Hids, elem_of_app, list_elem_of_singleton.
      intros [Ht | Heq]; [by apply (Hlater t')|].
      apply (inj pretty) in Heq as ->. by apply Hafter.
Qed.

Lemma filter_all {A} (P : A → Prop) `{!∀ x, Decision (P x)} (l : list A) :
  Forall P l → filter P l = l.
Proof.
  induction 1 as [|x l Hx Hl IH]; [done|].
  by rewrite filter_cons, decide_True, IH.
Qed.

Lemma filter_none {A} (P : A → Prop) `{!∀ x, Decision (P x)} (l : list A) :
  Forall (λ x, ¬ P x) l → filter P l = [].
Proof.
  induction 1 as [|x l Hx Hl IH]; [done|].
  by rewrite filter_cons, decide_False, IH.
Qed.

Lemma removeDrug_absent id s :
  id ∉ ids s → drugs (removeDrug id s) = drugs s.
Proof.
  intros Hnot. simpl. apply filter_all, Forall_forall.
  intros d Hd Heq. apply Hnot. unfold ids. rewrite <-Heq.
  by apply list_elem_of_fmap_2.
Qed.

(** X11.  When the clock has advanced between any two presses of "Add
    Drug", the ids of the entries in the list are pairwise different,
    whatever else the user did in between. *)
Theorem ids_unique_when_clock_advances (es : list Event) :
  StronglySorted N.lt (stamps es) →
  NoDup (ids (run es initialState)).
Proof.
  intros Hsorted. apply run_ids_NoDup; [constructor|done|].
  apply Forall_forall. intros t' _ t Ht. by apply elem_of_nil in Ht.
Qed.

Lemma ids_unique_when_clock_advances_witness :
  NoDup (ids (run [TypeName "warfarin"; ClickAdd 10; TypeName "aspirin";
                   ClickAdd 11; ClickRemove "10"; TypeName "warfarin";
                   ClickAdd 12; ClickAnalyze] initialState)).
Proof.
  apply (ids_unique_when_clock_advances
           [TypeName "warfarin"; ClickAdd 10; TypeName "aspirin";
            ClickAdd 11; ClickRemove "10"; TypeName "warfarin";
            ClickAdd 12; ClickAnalyze]).
  simpl. repeat constructor.
Defined.

(** X12.  When ids are pairwise different, pressing the bin of an entry
    removes that entry and no other: the list loses exactly the one entry
    with that id and keeps the others in place. *)
Theorem remove_exactly_one (id : string) (s : State) :
  NoDup (ids s) → id ∈ ids s →
  ∃ l1 d l2,
    drugs s = l1 ++ d :: l2 ∧ Drug.id d = id ∧
    drugs (removeDrug id s) = l1 ++ l2 ∧
    length (drugs (removeDrug id s)) + 1 = length (drugs s).
Proof.
  unfold ids. intros Hnodup Hin.
  apply list_elem_of_fmap in Hin as (d & -> & Hd).
  apply list_elem_of_split in Hd as (l1 & l2 & Hsplit).
  rewrite Hsplit, fmap_app, fmap_cons in Hnodup.
  apply NoDup_app in Hnodup as (_ & Hl1 & [Hl2 _]%NoDup_cons).
  exists l1, d, l2. split_and!; [done..| |].
  - simpl. rewrite Hsplit, filter_app, filter_cons, decide_False by tauto.
    rewrite !filter_all; [done|..]; apply Forall_forall; intros x Hx Heq.
    + apply Hl2. rewrite <-Heq. by apply list_elem_of_fmap_2.
    + apply (Hl1 (Drug.id x)); [by apply list_elem_of_fmap_2|].
      rewrite Heq. left.
  - simpl. rewrite Hsplit, filter_app, filter_cons, decide_False by tauto.
    rewrite !filter_all, !length_app; [simpl; lia|..];
      apply Forall_forall; intros x Hx Heq.
    + apply Hl2. rewrite <-Heq. by apply list_elem_of_fmap_2.
    + apply (Hl1 (Drug.id x)); [by apply list_elem_of_fmap_2|].
      rewrite Heq. left.
Qed.

Lemma remove_exactly_one_witness :
  ∃ l1 d l2,
    [Drug.mk "10" "warfarin" "" ""; Drug.mk "11" "aspirin" "" "";
     Drug.mk "12" "warfarin" "" ""] = l1 ++ d :: l2 ∧
    Drug.id d = "11" ∧
    drugs (removeDrug "11"
             (mkState [Drug.mk "10" "warfarin" "" ""; Drug.mk "11" "aspirin" "" "";
                       Drug.mk "12" "warfarin" "" ""]
                (NewDrug.mk "" "" "") [] false)) = l1 ++ l2.
Proof.
  destruct (remove_exactly_one "11"
              (mkState [Drug.mk "10" "warfarin" "" ""; Drug.mk "11" "aspirin" "" "";
                        Drug.mk "12" "warfarin" "" ""]
                 (NewDrug.mk "" "" "") [] false))
    as (l1 & d & l2 & Hsplit & Hid & Hrem & _).
  - vm_compute. repeat constructor; intros Hin;
      repeat (apply elem_of_cons in Hin as [Hin | Hin]; [discriminate Hin|]);
      by apply elem_of_nil in Hin.
  - vm_compute. right. left.
  - exists l1, d, l2. split_and!; [exact Hsplit|exact Hid|exact Hrem].
Defined.


(** X13.  Adding an entry and pressing its bin gives the list back as it
    was, provided no other entry carries the id made from the time of the
    click. *)
Theorem add_then_remove_restores (now : N) (s : State) :
  blank (NewDrug.name (newDrug s)) = false →
  pretty now ∉ ids s →
  drugs (removeDrug (pretty now) (addDrug now s).1) = drugs s ∧
  interactions (removeDrug (pretty now) (addDrug now s).1) = [].
Proof.
  intros Hblank Hfresh. rewrite addDrug_stored by done. simpl.
  split; [|done].
  rewrite filter_app, filter_cons, decide_False, filter_nil, app_nil_r
    by (simpl; tauto).
  apply (removeDrug_absent _ s Hfresh).
Qed.

Lemma add_then_remove_restores_witness :
  drugs (removeDrug "25"
           (addDrug 25
              (mkState [Drug.mk "10" "warfarin" "" ""]
                 (NewDrug.mk "Aspirin" "" "") [] false)).1)
  = [Drug.mk "10" "warfarin" "" ""].
Proof.
  apply (add_then_remove_restores 25
           (mkState [Drug.mk "10" "warfarin" "" ""]
              (NewDrug.mk "Aspirin" "" "") [] false)).
  - reflexivity.
  - vm_compute. intros Hin.
    apply elem_of_cons in Hin as [Hin | Hin]; [discriminate Hin|].
    by apply elem_of_nil in Hin.
Defined.



(** X15.  Removals compose: removing the same id twice is removing it once,
    two removals can be done in either order, removing an id that no entry
    carries leaves the list as it is (the stored findings are emptied all
    the same), and a removal never makes the list longer. *)
Theorem removeDrug_composes (a b : string) (s : State) :
  removeDrug a (removeDrug a s) = removeDrug a s ∧
  removeDrug a (removeDrug b s) = removeDrug b (removeDrug a s) ∧
  (a ∉ ids s →
   removeDrug a s = mkState (drugs s) (newDrug s) [] (isAnalyzing s)) ∧
  length (drugs (removeDrug a s)) ≤ length (drugs s).
Proof.
  unfold removeDrug, setInteractions, setDrugs. simpl. split_and!.
  - f_equal. rewrite list_filter_filter. apply list_filter_iff. tauto.
  - f_equal. rewrite !list_filter_filter. apply list_filter_iff. tauto.
  - intros Hnot. f_equal. apply (removeDrug_absent _ s Hnot).
  - apply length_filter.
Qed.

(** X16.  For each of the four severities the badge colour, the icon and
    the border of a result card agree: high and severe get the destructive
    colour, the X icon and the destructive border, moderate the warning
    colour, triangle and border, low the success colour, check mark and
    border.  Any other string gets the secondary badge colour but the check
    mark and the success border of low. *)
Theorem severity_presentation (v : Severity) :
  borderClass (severity_literal v)
  = "border-l-" +:+ getSeverityColor (severity_literal v) ∧
  (getSeverityColor (severity_literal v) = "destructive" ↔
   v = high ∨ v = severe) ∧
  (getSeverityIcon (severity_literal v) = XCircle ↔ v = high ∨ v = severe) ∧
  (getSeverityIcon (severity_literal v) = AlertTriangle ↔ v = moderate) ∧
  (getSeverityColor (severity_literal v) = "warning" ↔ v = moderate) ∧
  (getSeverityIcon (severity_literal v) = CheckCircle ↔ v = low) ∧
  (getSeverityColor (severity_literal v) = "success" ↔ v = low) ∧
  (∀ other : string,
     (∀ w, other ≠ severity_literal w) →
     getSeverityColor other = "secondary" ∧
     getSeverityIcon other = CheckCircle ∧
     borderClass other = "border-l-success").
Proof.
  split_and!.
  - by destruct v.
  - destruct v; vm_compute; intuition congruence.
  - destruct v; vm_compute; intuition congruence.
  - destruct v; vm_compute; intuition congruence.
  - destruct v; vm_compute; intuition congruence.
  - destruct v; vm_compute; intuition congruence.
  - destruct v; vm_compute; intuition congruence.
  - intros other Hother.
    unfold getSeverityColor, getSeverityIcon, borderClass.
    destruct (String.eqb other "severe") eqn:E1;
      [apply String.eqb_eq in E1; by destruct (Hother severe)|].
    destruct (String.eqb other "high") eqn:E2;
      [apply String.eqb_eq in E2; by destruct (Hother high)|].
    destruct (String.eqb other "moderate") eqn:E3;
      [apply String.eqb_eq in E3; by destruct (Hother moderate)|].
    destruct (String.eqb other "low") eqn:E4;
      [apply String.eqb_eq in E4; by destruct (Hother low)|].
    done.
Qed.

(** X17.  As long as the analysis has never been run, a list of two entries
    or more is shown with the "No Interactions Detected" alert and without
    the results card, whatever the entries are. *)
Theorem no_interactions_alert_before_analysis (es : list Event) :
  ClickAnalyze ∉ es →
  2 ≤ length (drugs (run es initialState)) →
  showsNoInteractions (run es initialState) = true ∧
  showsResults (run es initialState) = false.
Proof.
  intros Hnot Hlen.
  destruct (run_without_analysis es initialState Hnot) as [Hnil Hidle];
    [done..|].
  unfold showsNoInteractions, showsResults. rewrite Hnil, Hidle.
  split; [|done]. rewrite (proj2 (Nat.leb_le _ _) Hlen). done.
Qed.

Lemma no_interactions_alert_before_analysis_witness :
  showsNoInteractions
    (run [TypeName "Warfarin"; ClickAdd 1; TypeName "Aspirin"; ClickAdd 2]
       initialState) = true ∧
  interactions
    (run [TypeName "Warfarin"; ClickAdd 1; TypeName "Aspirin"; ClickAdd 2;
          ClickAnalyze] initialState)
  = [Interaction.mk "warfarin" "aspirin" high
       "Increased risk of bleeding when used together"
       "Monitor INR levels closely and consider alternative anticoagulation"].
Proof.
  split.
  - apply (no_interactions_alert_before_analysis
             [TypeName "Warfarin"; ClickAdd 1; TypeName "Aspirin"; ClickAdd 2]).
    + intros Hin.
      repeat (apply elem_of_cons in Hin as [Hin | Hin]; [discriminate Hin|]).
      by apply elem_of_nil in Hin.
    + vm_compute. lia.
  - vm_compute. reflexivity.
Defined.



Lemma filter_ext_in {A} (P Q : A → Prop)
    `{!∀ x, Decision (P x), !∀ x, Decision (Q x)} (l : list A) :
  (∀ x, x ∈ l → P x ↔ Q x) → filter P l = filter Q l.
Proof.
  induction l as [|x l IH]; intros Hext; [done|].
  rewrite !filter_cons, IH by (intros y Hy; apply Hext; by right).
  destruct (decide (P x)) as [HP | HP], (decide (Q x)) as [HQ | HQ];
    try done; exfalso; [apply HQ | apply HP]; by apply (Hext x); [left|].
Qed.

Lemma existsb_elem_of {A} (p : A → bool) (l : list A) :
  existsb p l = true ↔ ∃ x, x ∈ l ∧ p x = true.
Proof.
  rewrite existsb_exists. split; intros (x & Hx & Hp); exists x;
    by rewrite ?list_elem_of_In in *.
Qed.

(** X19.  When the case-folded names of the entries are pairwise different
    and every rule of the table lists two drugs, the position pairs that
    produce a finding are exactly those whose two names are the pair of some
    rule.  (The program's table has two drugs in every rule.) *)
Theorem distinct_names_exact_matching (rules : list Mock.t)
    (entries : list Drug.t) :
  NoDup ((λ d, toLowerCase (Drug.name d)) <$> entries) →
  Forall (λ mock, length (Mock.drugs mock) = 2) rules →
  matching_pairs rules entries = exactly_matching_pairs rules entries ∧
  ∃ found,
    foundInteractions rules entries = Some found ∧
    length found = length (exactly_matching_pairs rules entries).
Proof.
  intros Hnodup Hrules.
  assert (matching_pairs rules entries = exactly_matching_pairs rules entries)
    as Heq.
  { unfold matching_pairs, exactly_matching_pairs.
    apply filter_ext_in. intros [i j] Hij%elem_of_index_pairs.
    rewrite finding_at_is_Some. unfold pair_matches, exact_at. simpl.
    destruct (entries !! i) as [di|] eqn:Hi;
      [|split; [by intros (? & ? & ? & ? & _)|done]].
    destruct (entries !! j) as [dj|] eqn:Hj;
      [|split; [by intros (? & ? & ? & _ & ? & _)|done]].
    assert (toLowerCase (Drug.name di) ≠ toLowerCase (Drug.name dj)) as Hne.
    { intros Hsame.
      assert (i = j); [|lia].
      eapply NoDup_lookup; [exact Hnodup|..];
        rewrite list_lookup_fmap; [by rewrite Hi|by rewrite Hj, Hsame]. }
    rewrite existsb_elem_of. rewrite Forall_forall in Hrules. split.
    - intros (di' & dj' & mock & [= <-] & [= <-] & Hin & Hm).
      exists mock. split; [done|].
      apply exact_pairb_spec, mock_matches_exact; auto.
    - intros (mock & Hin & Hex%exact_pairb_spec).
      exists di, dj, mock. split_and!; [done..|].
      by apply exact_pair_matches. }
  split; [done|].
  eexists. split; [apply foundInteractions_spec|].
  rewrite <-Heq. apply omap_length_filter.
Qed.

Lemma distinct_names_exact_matching_witness :
  matching_pairs mockInteractions
    [Drug.mk "1" "Warfarin" "" ""; Drug.mk "2" "metformin" "" "";
     Drug.mk "3" "aspirin" "" ""; Drug.mk "4" "Iodine" "" ""]
  = exactly_matching_pairs mockInteractions
      [Drug.mk "1" "Warfarin" "" ""; Drug.mk "2" "metformin" "" "";
       Drug.mk "3" "aspirin" "" ""; Drug.mk "4" "Iodine" "" ""].
Proof.
  apply (distinct_names_exact_matching mockInteractions
           [Drug.mk "1" "Warfarin" "" ""; Drug.mk "2" "metformin" "" "";
            Drug.mk "3" "aspirin" "" ""; Drug.mk "4" "Iodine" "" ""]).
  - vm_compute. repeat constructor; intros Hin;
      repeat (apply elem_of_cons in Hin as [Hin | Hin]; [discriminate Hin|]);
      by apply elem_of_nil in Hin.
  - repeat constructor.
Defined.

(** ** The delay of the analysis *)

Lemma event_is_analyze (e : Event) : e = ClickAnalyze ∨ e ≠ ClickAnalyze.
Proof. destruct e; auto. Qed.

Lemma pageRun_cons e es p : pageRun (e :: es) p = pageRun es (pageStep e p).
Proof. done. Qed.

Lemma pageRun_app es1 es2 p :
  pageRun (es1 ++ es2) p = pageRun es2 (pageRun es1 p).
Proof. apply foldl_app. Qed.

Lemma resume_total captured s :
  analyzeInteractions_resume captured s
  = Some (mkState (drugs s) (newDrug s)
            (pairwise_findings mockInteractions captured) false,
          [if length (pairwise_findings mockInteractions captured) =? 0 then
             Toast.mk "Analysis Complete"
               "No significant interactions detected between the entered medications"
               Toast.default
           else
             Toast.mk "Interactions Found"
               (pretty (length (pairwise_findings mockInteractions captured))
                  +:+ " potential interaction(s) detected")
               Toast.destructive]).
Proof.
  unfold analyzeInteractions_resume. by rewrite foundInteractions_pairwise.
Qed.

Lemma step_keeps_list_and_form e s1 s2 :
  drugs s1 = drugs s2 → newDrug s1 = newDrug s2 →
  drugs (step e s1) = drugs (step e s2) ∧
  newDrug (step e s1) = newDrug (step e s2).
Proof.
  intros Hd Hn. destruct e as [v|v|v|now|id|]; simpl.
  - by rewrite Hn.
  - by rewrite Hn.
  - by rewrite Hn.
  - unfold addDrug. rewrite Hn. destruct (String.eqb _ ""); simpl; [done|].
    by rewrite Hd.
  - by rewrite Hd.
  - destruct (step_analyze s1) as (f1 & _ & H1).
    destruct (step_analyze s2) as (f2 & _ & H2).
    unfold step in H1, H2. rewrite H1, H2.
    by destruct (length (drugs s1) <? 2), (length (drugs s2) <? 2).
Qed.

Lemma step_user_analyzing e s :
  e ≠ ClickAnalyze → isAnalyzing (step e s) = isAnalyzing s.
Proof.
  destruct e as [v|v|v|now|id|]; simpl; try done.
  unfold addDrug. by destruct (String.eqb _ "").
Qed.

(** While an analysis is waiting, user events change the list and the form
    as they always do, and nothing else. *)
Lemma pageRun_while_pending es p s0 :
  isAnalyzing (state p) = true →
  drugs (state p) = drugs s0 → newDrug (state p) = newDrug s0 →
  isAnalyzing (state (pageRun (User <$> es) p)) = true ∧
  pending (pageRun (User <$> es) p) = pending p ∧
  drugs (state (pageRun (User <$> es) p)) = drugs (run es s0) ∧
  newDrug (state (pageRun (User <$> es) p)) = newDrug (run es s0).
Proof.
  revert p s0. induction es as [|e es IH]; intros p s0 Hbusy Hd Hn; [done|].
  rewrite fmap_cons, pageRun_cons, run_cons.
  destruct (event_is_analyze e) as [-> | Hne].
  - assert (pageStep (User ClickAnalyze) p = p) as ->.
    { simpl. unfold analyzeDisabled. by rewrite Hbusy. }
    apply IH; [done|..].
    + by rewrite step_analyze_drugs.
    + destruct (step_analyze s0) as (f & _ & ->).
      by destruct (length (drugs s0) <? 2).
  - assert (pageStep (User e) p = mkPage (step e (state p)) (pending p)) as ->.
    { by destruct e. }
    destruct (step_keeps_list_and_form e (state p) s0 Hd Hn) as [Hd' Hn'].
    destruct (IH (mkPage (step e (state p)) (pending p)) (step e s0))
      as (? & ? & ? & ?); [|done..|done].
    simpl. by rewrite step_user_analyzing.
Qed.

(** X20.  For a user who lets every analysis finish before doing anything
    else, the page goes through the states that the handlers run without
    delay give, and no analysis is left waiting. *)
Theorem patient_user_sees_undelayed_run (es : list Event) (s : State) :
  isAnalyzing s = false →
  pageRun (patient es) (mkPage s []) = mkPage (run es s) [].
Proof.
  revert s. induction es as [|e es IH]; intros s Hidle; [done|].
  unfold patient. rewrite bind_cons, pageRun_app, run_cons.
  fold (patient es).
  assert (isAnalyzing (step e s) = false) as Hidle'.
  { destruct (event_is_analyze e) as [-> | Hne].
    - destruct (step_analyze s) as (found & _ & ->).
      by destruct (length (drugs s) <? 2).
    - by rewrite step_user_analyzing. }
  rewrite <-(IH (step e s) Hidle'). f_equal.
  destruct (event_is_analyze e) as [-> | Hne]; [|by destruct e].
  destruct (step_analyze s) as (found & Hfound & ->).
  rewrite foundInteractions_pairwise in Hfound. injection Hfound as <-.
  unfold pageRun. simpl foldl.
  unfold analyzeDisabled, analyzeInteractions_begin. rewrite Hidle. simpl.
  destruct (length (drugs s) <? 2); simpl; [done|].
  by rewrite resume_total.
Qed.

Lemma patient_user_sees_undelayed_run_witness :
  pageRun [User (TypeName "aspirin"); User (ClickAdd 2); User ClickAnalyze;
           TimerFires]
    (mkPage (mkState [Drug.mk "1" "warfarin" "" ""] (NewDrug.mk "" "" "")
               [] false) [])
  = mkPage (mkState [Drug.mk "1" "warfarin" "" ""; Drug.mk "2" "aspirin" "" ""]
              (NewDrug.mk "" "" "")
              [Interaction.mk "warfarin" "aspirin" high
                 "Increased risk of bleeding when used together"
                 "Monitor INR levels closely and consider alternative anticoagulation"]
              false) [].
Proof.
  apply (patient_user_sees_undelayed_run
           [TypeName "aspirin"; ClickAdd 2; ClickAnalyze]
           (mkState [Drug.mk "1" "warfarin" "" ""] (NewDrug.mk "" "" "")
              [] false)).
  reflexivity.
Defined.

(** X21.  The findings stored at the end of the delay are those of the list
    as it was when the analyse button was pressed, whatever the user did
    during the delay; the list itself is what those actions made of it.  So
    after a removal during the delay the stored findings can name a drug
    that is no longer in the list. *)
Theorem findings_of_list_at_press (es : list Event) (s : State) :
  isAnalyzing s = false → 2 ≤ length (drugs s) →
  foundInteractions mockInteractions (drugs s)
  = Some (interactions
            (state (pageRun (User ClickAnalyze :: (User <$> es) ++ [TimerFires])
                      (mkPage s [])))) ∧
  drugs (state (pageRun (User ClickAnalyze :: (User <$> es) ++ [TimerFires])
                  (mkPage s [])))
  = drugs (run es s) ∧
  isAnalyzing (state (pageRun (User ClickAnalyze :: (User <$> es) ++ [TimerFires])
                        (mkPage s []))) = false ∧
  pending (pageRun (User ClickAnalyze :: (User <$> es) ++ [TimerFires])
             (mkPage s [])) = [].
Proof.
  intros Hidle Hlen. rewrite pageRun_cons, pageRun_app.
  assert (pageStep (User ClickAnalyze) (mkPage s [])
          = mkPage (setIsAnalyzing true s) [drugs s]) as ->.
  { simpl. unfold analyzeDisabled, analyzeInteractions_begin.
    by rewrite Hidle, (proj2 (Nat.ltb_ge _ _) Hlen). }
  destruct (pageRun_while_pending es (mkPage (setIsAnalyzing true s) [drugs s]) s)
    as (Hbusy & Hpending & Hd & Hn); [done..|].
  unfold pageRun at 1 3 5 7. simpl foldl. simpl in Hpending.
  rewrite Hpending, resume_total. simpl.
  by rewrite foundInteractions_pairwise.
Qed.

Lemma findings_of_list_at_press_witness :
  interactions
    (state (pageRun [User ClickAnalyze; User (ClickRemove "1"); TimerFires]
              (mkPage (mkState [Drug.mk "1" "warfarin" "" "";
                                Drug.mk "2" "aspirin" "" ""]
                         (NewDrug.mk "" "" "") [] false) [])))
  = [Interaction.mk "warfarin" "aspirin" high
       "Increased risk of bleeding when used together"
       "Monitor INR levels closely and consider alternative anticoagulation"] ∧
  drugs
    (state (pageRun [User ClickAnalyze; User (ClickRemove "1"); TimerFires]
              (mkPage (mkState [Drug.mk "1" "warfarin" "" "";
                                Drug.mk "2" "aspirin" "" ""]
                         (NewDrug.mk "" "" "") [] false) [])))
  = [Drug.mk "2" "aspirin" "" ""].
Proof.
  destruct (findings_of_list_at_press [ClickRemove "1"]
              (mkState [Drug.mk "1" "warfarin" "" ""; Drug.mk "2" "aspirin" "" ""]
                 (NewDrug.mk "" "" "") [] false))
    as (Hfound & Hdrugs & _).
  - reflexivity.
  - simpl. lia.
  - split; [|exact Hdrugs].
    apply (inj Some). etrans; [symmetry; exact Hfound|].
    vm_compute. reflexivity.
Defined.

(** X22.  Analyses never overlap: in every page reached from the initial
    one, at most one analysis waits for its timer, [isAnalyzing] is on
    exactly while one waits, and the list it captured has at least two
    entries. *)
Theorem analyses_never_overlap (es : list PageEvent) :
  length (pending (pageRun es initialPage)) ≤ 1 ∧
  (isAnalyzing (state (pageRun es initialPage)) = true ↔
   pending (pageRun es initialPage) ≠ []) ∧
  Forall (λ captured : list Drug.t, 2 ≤ length captured)
    (pending (pageRun es initialPage)).
Proof.
  assert (∀ p,
            (isAnalyzing (state p) = false ∧ pending p = []) ∨
            (isAnalyzing (state p) = true ∧
             ∃ captured : list Drug.t,
               pending p = [captured] ∧ 2 ≤ length captured) →
            (isAnalyzing (state (pageRun es p)) = false ∧
             pending (pageRun es p) = []) ∨
            (isAnalyzing (state (pageRun es p)) = true ∧
             ∃ captured : list Drug.t,
               pending (pageRun es p) = [captured] ∧ 2 ≤ length captured))
    as Hinv.
  { induction es as [|e es IH]; intros p Hp; [done|].
    rewrite pageRun_cons. apply IH.
    destruct e as [e|].
    - destruct (event_is_analyze e) as [-> | Hne].
      + simpl. unfold analyzeDisabled, analyzeInteractions_begin.
        destruct Hp as [[Hidle Hnil] | [Hbusy Hone]].
        * rewrite Hidle. simpl.
          destruct (length (drugs (state p)) <? 2) eqn:Hguard; [by left|].
          right. simpl. split; [done|]. rewrite Hnil.
          exists (drugs (state p)). split; [done|]. by apply Nat.ltb_ge.
        * rewrite Hbusy. simpl. by right.
      + assert (pageStep (User e) p = mkPage (step e (state p)) (pending p))
          as -> by by destruct e.
        simpl. by rewrite step_user_analyzing.
    - simpl. destruct Hp as [[Hidle Hnil] | [Hbusy (c & Hone & Hc)]].
      + rewrite Hnil. by left.
      + rewrite Hone, resume_total. simpl. by left. }
  destruct (Hinv initialPage) as [[Hidle Hnil] | [Hbusy (c & Hone & Hc)]];
    [by left|..].
  - rewrite Hidle, Hnil. split_and!; [simpl; lia|done|constructor].
  - rewrite Hbusy, Hone. split_and!; [done|done|by repeat constructor].
Qed.

(** X23.  The delay never changes the list or the form: after any page
    events, timers included, they are what the user's actions alone make of
    them with the handlers run without delay. *)
Theorem list_independent_of_delay (es : list PageEvent) :
  drugs (state (pageRun es initialPage))
  = drugs (run (userEvents es) initialState) ∧
  newDrug (state (pageRun es initialPage))
  = newDrug (run (userEvents es) initialState).
Proof.
  assert (∀ p s0,
            drugs (state p) = drugs s0 → newDrug (state p) = newDrug s0 →
            drugs (state (pageRun es p)) = drugs (run (userEvents es) s0) ∧
            newDrug (state (pageRun es p)) = newDrug (run (userEvents es) s0))
    as Hsim.
  { induction es as [|e es IH]; intros p s0 Hd Hn; [done|].
    rewrite pageRun_cons. destruct e as [e|].
    - change (userEvents (User e :: es)) with (e :: userEvents es).
      rewrite run_cons.
      destruct (step_keeps_list_and_form e (state p) s0 Hd Hn) as [Hd' Hn'].
      apply IH.
      + rewrite <-Hd'. destruct (event_is_analyze e) as [-> | Hne];
          [|by destruct e].
        rewrite step_analyze_drugs. simpl.
        unfold analyzeInteractions_begin.
        destruct (analyzeDisabled (state p)); [done|].
        by destruct (length (drugs (state p)) <? 2).
      + rewrite <-Hn'. destruct (event_is_analyze e) as [-> | Hne];
          [|by destruct e].
        destruct (step_analyze (state p)) as (f & _ & Hstep).
        unfold step in Hstep |- *. rewrite Hstep. simpl.
        unfold analyzeInteractions_begin.
        destruct (analyzeDisabled (state p));
          destruct (length (drugs (state p)) <? 2); done.
    - change (userEvents (TimerFires :: es)) with (userEvents es).
      apply IH; simpl; destruct (pending p) as [|c rest]; try done;
        by rewrite resume_total. }
  by apply (Hsim initialPage initialState).
Qed.

(** C10.  Claimed: [removeDrug] empties the stored findings, so that findings
    never outlive a change made to the list through a removal.  The bin of
    an entry stays enabled while an analysis waits for its timer: after
    adding warfarin and aspirin, pressing the analyse button and removing
    warfarin during the delay, the removal leaves no stored finding, but when
    the timer fires the analysis stores the warfarin/aspirin finding of the
    list it captured, next to a list that holds aspirin alone. *)
Theorem removal_during_delay_keeps_old_finding :
  drugs (state (pageRun [User (TypeName "warfarin"); User (ClickAdd 1);
                         User (TypeName "aspirin"); User (ClickAdd 2);
                         User ClickAnalyze; User (ClickRemove "1")]
                  initialPage))
  = [Drug.mk "2" "aspirin" "" ""] ∧
  interactions (state (pageRun [User (TypeName "warfarin"); User (ClickAdd 1);
                                User (TypeName "aspirin"); User (ClickAdd 2);
                                User ClickAnalyze; User (ClickRemove "1")]
                         initialPage))
  = [] ∧
  drugs (state (pageRun [User (TypeName "warfarin"); User (ClickAdd 1);
                         User (TypeName "aspirin"); User (ClickAdd 2);
                         User ClickAnalyze; User (ClickRemove "1"); TimerFires]
                  initialPage))
  = [Drug.mk "2" "aspirin" "" ""] ∧
  interactions (state (pageRun [User (TypeName "warfarin"); User (ClickAdd 1);
                                User (TypeName "aspirin"); User (ClickAdd 2);
                                User ClickAnalyze; User (ClickRemove "1");
                                TimerFires]
                         initialPage))
  = [Interaction.mk "warfarin" "aspirin" high
       "Increased risk of bleeding when used together"
       "Monitor INR levels closely and consider alternative anticoagulation"].
Proof. split_and!; vm_compute; reflexivity. Qed.
